(** * A shallow embedding of [app_download.py]

    The script authenticates against the Xero API, resolves a contact,
    enumerates its invoices page by page and downloads their attachments,
    using its own log file as a resumption ledger.

    The development has four layers:
    - [Py]: the Python string operations the script uses ([in], [split],
      [strip], [replace], text-mode line iteration, integer formatting);
    - the data model: HTTP requests and responses, the JSON bodies of the
      endpoints, exceptions, the file system with a working directory;
    - a small monad for effects (output trace, state, [sys.exit],
      exceptions, fuel for the unbounded loop) and the script's functions
      written in it, one definition per source function;
    - the properties.

    Strings are [string]; a character is a code point below 256. *)

From Stdlib Require Import ZArith List Ascii String DecimalString.
From stdpp Require Import base gmap strings list.

(** ** Python string primitives *)

Module Py.

(** [c.isspace()] on the code points below 256. *)
Definition isspace (c : ascii) : bool :=
  let n := nat_of_ascii c in
  ((9 <=? n) && (n <=? 13)) || ((28 <=? n) && (n <=? 32))
  || (n =? 133) || (n =? 160).

Fixpoint lstrip (s : string) : string :=
  match s with
  | EmptyString => EmptyString
  | String c t => if isspace c then lstrip t else s
  end.

Fixpoint rstrip (s : string) : string :=
  match s with
  | EmptyString => EmptyString
  | String c t =>
      match rstrip t with
      | EmptyString => if isspace c then EmptyString else String c EmptyString
      | r => String c r
      end
  end.

(** [s.strip()] *)
Definition strip (s : string) : string := rstrip (lstrip s).

(** [s.startswith(pre)] *)
Definition startswith (pre s : string) : bool := String.prefix pre s.

(** [sub in s] *)
Fixpoint contains (sub s : string) : bool :=
  startswith sub s ||
  match s with
  | EmptyString => false
  | String _ t => contains sub t
  end.

Fixpoint drop (n : nat) (s : string) : string :=
  match n, s with
  | S k, String _ t => drop k t
  | _, _ => s
  end.

(** The text before and after the leftmost occurrence of [sep] in [s]
    ([s.partition(sep)] when [sep] occurs). *)
Fixpoint partition (sep s : string) : option (string * string) :=
  if startswith sep s then Some (EmptyString, drop (String.length sep) s)
  else
    match s with
    | EmptyString => None
    | String c t =>
        match partition sep t with
        | Some (a, b) => Some (String c a, b)
        | None => None
        end
    end.

Fixpoint split_fuel (fuel : nat) (sep s : string) : list string :=
  match fuel with
  | O => [s]
  | S f =>
      match partition sep s with
      | None => [s]
      | Some (a, b) => a :: split_fuel f sep b
      end
  end.

(** [s.split(sep)] for a non-empty [sep] (Python raises [ValueError] on an
    empty one; the script only splits on literals).  The pieces between
    the non-overlapping occurrences of [sep], found left to right; the
    recursion is on the rest of the string, which gets shorter, so the
    length of [s] is fuel enough. *)
Definition split (sep s : string) : list string :=
  split_fuel (S (String.length s)) sep s.

(** [s.replace(old, new)] for a one-character [old]. *)
Fixpoint replace_char (old : ascii) (new : string) (s : string) : string :=
  match s with
  | EmptyString => EmptyString
  | String c t =>
      (if Ascii.eqb c old then new else String c EmptyString)
      +:+ replace_char old new t
  end.

Definition LF : ascii := ascii_of_nat 10.
Definition CR : ascii := ascii_of_nat 13.

(** The lines a text file opened with [open(name, 'r')] iterates over:
    universal newlines, so each of "\n", "\r\n" and "\r" ends a line and
    is handed over as "\n".  [after_cr] tells that the previous character
    was a "\r" (a "\n" right after it belongs to the same line end). *)
Fixpoint lines_go (after_cr : bool) (cur : string) (s : string) : list string :=
  match s with
  | EmptyString =>
      match cur with EmptyString => [] | _ => [cur] end
  | String c t =>
      if Ascii.eqb c LF then
        if after_cr then lines_go false cur t
        else (cur +:+ String LF EmptyString) :: lines_go false EmptyString t
      else if Ascii.eqb c CR then
        (cur +:+ String LF EmptyString) :: lines_go true EmptyString t
      else lines_go false (cur +:+ String c EmptyString) t
  end.

Definition file_lines (content : string) : list string :=
  lines_go false EmptyString content.

(** [str(n)] and [f"{n}"] for an integer. *)
Definition str_int (n : Z) : string := NilZero.string_of_int (Z.to_int n).

(** [f"{n:02d}"] for a natural number: at least two digits, zero padded. *)
Definition fmt_02d (n : nat) : string :=
  let s := NilZero.string_of_uint (Nat.to_uint n) in
  if String.length s <? 2 then "0" +:+ s else s.

End Py.

(** ** Data model *)

(** Arguments of [requests.get] and [requests.post]. *)
Inductive Method := GET | POST.

(** A value of the [params] dictionary: a string or an integer. *)
Inductive PyVal :=
| PStr (s : string)
| PInt (n : Z).

Record Request := mkRequest {
  meth : Method;
  url : string;
  headers : list (string * string);
  params : option (list (string * PyVal));
  auth : option (string * string);      (* HTTPBasicAuth(user, password) *)
  data : list (string * string)
}.

(** The records of the API, with the keys the script reads.  A key that
    is absent from the JSON object is [None]; the values are strings. *)
Record Connection := mkConnection { tenantId : option string }.
Record Contact := mkContact { ContactID : option string }.
Record Invoice := mkInvoice {
  InvoiceID : option string;
  InvoiceNumber : option string;
  DateString : option string
}.
Record Attachment := mkAttachment { FileName : option string }.

(** A JSON object as the script looks at it. *)
Record Dict := mkDict {
  access_token : option string;
  Contacts : option (list Contact);
  Invoices : option (list Invoice);
  Attachments : option (list Attachment)
}.

(** What [response.json()] gives: the connections endpoint answers with a
    list, the others with an object. *)
Inductive Json :=
| JList (l : list Connection)
| JDict (d : Dict).

Record Response := mkResponse {
  status_code : Z;
  text : string;
  content : string;          (* the raw body, written to disk as it is *)
  json : option Json         (* [None]: the body is not JSON *)
}.

Inductive Exn :=
| KeyError (key : string)
| KeyError0                   (* [d[0]] on a dictionary *)
| TypeError
| AttributeError
| JSONDecodeError
| RequestException            (* raised by [requests] itself *)
| OSError.                    (* and its subclasses, raised by file operations *)

Inductive Level := INFO | ERROR.

Definition levelname (l : Level) : string :=
  match l with INFO => "INFO" | ERROR => "ERROR" end.

(** An absolute path: the names from the root down. *)
Definition Path := list string.

(** What the program does to the outside, in order. *)
Inductive Event :=
| EPrint (s : string)                       (* [print(s)] *)
| ELog (l : Level) (msg : string)           (* [logger.info] / [logger.error] *)
| ERequest (r : Request)                    (* [requests.get] / [requests.post] *)
| ESleep (seconds : Z)                      (* [time.sleep] *)
| EMakedirs (p : string)                    (* [os.makedirs] *)
| EChdir (p : string)                       (* [os.chdir] *)
| EWrite (p : Path) (bytes : string).       (* [open(name, 'wb')] and [write] *)

(** The outside world: the server (it answers a request the same way
    whenever it is asked, or [requests] raises), the time stamp of the
    n-th log record and the text of an exception ([str(err)]). *)
Record World := mkWorld {
  server : Request -> Exn + Response;
  asctime : nat -> string;
  str_exn : Exn -> string
}.

(** [config.ini] as read at import time, the parsed [START_DATE], and the
    directory the script was started in. *)
Record Config := mkConfig {
  CLIENT_ID : string;
  CLIENT_SECRET : string;
  SUPPLIER_NAME : string;
  start_year : nat;
  start_month : nat;
  start_day : nat;
  start_dir : Path
}.

(** The file system (POSIX, no symbolic links), the working directory and
    the number of log records written so far. *)
Record State := mkState {
  cwd : Path;
  files : gmap Path string;
  dirs : gset Path;
  clock : nat
}.

Inductive Outcome (A : Type) :=
| Returned (a : A)
| Exited (code : Z)          (* [sys.exit(code)] *)
| Raised (e : Exn)
| OutOfFuel.                 (* the model's loop bound was reached *)
Arguments Returned {A} a.
Arguments Exited {A} code.
Arguments Raised {A} e.
Arguments OutOfFuel {A}.

Record Result (A : Type) := mkResult {
  outcome : Outcome A;
  final : State;
  events : list Event
}.
Arguments mkResult {A} outcome final events.
Arguments outcome {A} r.
Arguments final {A} r.
Arguments events {A} r.

(** ** The effect monad *)

Definition M (A : Type) : Type := State -> Result A.

Definition ret {A} (a : A) : M A := fun st => mkResult (Returned a) st [].

Definition bind {A B} (m : M A) (f : A -> M B) : M B :=
  fun st =>
    let r := m st in
    match outcome r with
    | Returned a =>
        let r' := f a (final r) in
        mkResult (outcome r') (final r') (events r ++ events r')
    | Exited c => mkResult (Exited c) (final r) (events r)
    | Raised e => mkResult (Raised e) (final r) (events r)
    | OutOfFuel => mkResult OutOfFuel (final r) (events r)
    end.

Notation "x <- m ;; k" := (bind m (fun x => k))
  (at level 100, m at next level, right associativity).
Notation "m ;;; k" := (bind m (fun _ => k))
  (at level 100, right associativity).

Definition raise {A} (e : Exn) : M A := fun st => mkResult (Raised e) st [].
Definition sys_exit {A} (code : Z) : M A := fun st => mkResult (Exited code) st [].
Definition out_of_fuel {A} : M A := fun st => mkResult OutOfFuel st [].
Definition emit (e : Event) : M unit := fun st => mkResult (Returned tt) st [e].

(** [try: m except Exception as err: h err].  [SystemExit] is not an
    [Exception], so an exit passes through. *)
Definition try_except {A} (m : M A) (h : Exn -> M A) : M A :=
  fun st =>
    let r := m st in
    match outcome r with
    | Raised e =>
        let r' := h e (final r) in
        mkResult (outcome r') (final r') (events r ++ events r')
    | _ => r
    end.

(** [for x in l: body x] *)
Fixpoint for_each {A} (l : list A) (body : A -> M unit) : M unit :=
  match l with
  | [] => ret tt
  | x :: l' => body x ;;; for_each l' body
  end.

(** A [for] loop that updates a local variable. *)
Fixpoint for_fold {A S} (l : list A) (body : A -> S -> M S) (s : S) : M S :=
  match l with
  | [] => ret s
  | x :: l' => s' <- body x s ;; for_fold l' body s'
  end.

Definition print (s : string) : M unit := emit (EPrint s).
Definition sleep (seconds : Z) : M unit := emit (ESleep seconds).

(** ** The file system

    Names are resolved the POSIX way: from the root when the name starts
    with a slash, from the working directory otherwise, one component at
    a time, and every component that is walked through must be a
    directory.  All the failures are [OSError]s. *)

Definition LOG_NAME : string := "xero_download.log".

Fixpoint walk (ds : gset Path) (cur : Path) (names : list string) : option Path :=
  match names with
  | [] => Some cur
  | n :: rest =>
      if bool_decide (cur ∈ ds) then
        if String.eqb n EmptyString || String.eqb n "." then walk ds cur rest
        else if String.eqb n ".." then walk ds (removelast cur) rest
        else walk ds (cur ++ [n]) rest
      else None
  end.

Definition resolve (st : State) (name : string) : option Path :=
  if String.eqb name EmptyString then None
  else if Py.startswith "/" name then walk (dirs st) [] (Py.split "/" name)
  else walk (dirs st) (cwd st) (Py.split "/" name).

Definition exists_at (st : State) (p : Path) : bool :=
  bool_decide (p ∈ dirs st) || bool_decide (is_Some (files st !! p)).

(** [os.path.exists(name)] *)
Definition os_path_exists (name : string) : M bool :=
  fun st =>
    mkResult
      (Returned match resolve st name with
                | Some p => exists_at st p
                | None => false
                end) st [].

(** [os.path.join(a, b)] for a non-empty [a] that does not end in a slash. *)
Definition os_path_join (a b : string) : string :=
  if Py.startswith "/" b then b else a +:+ "/" +:+ b.

(** The directories [os.makedirs] creates on the way down [names], and
    where it ends. *)
Fixpoint makedirs_go (fs : gmap Path string) (ds : gset Path) (cur : Path)
    (names : list string) : option (gset Path * Path) :=
  match names with
  | [] => Some (ds, cur)
  | n :: rest =>
      if String.eqb n EmptyString || String.eqb n "." then makedirs_go fs ds cur rest
      else if String.eqb n ".." then makedirs_go fs ds (removelast cur) rest
      else
        let p := cur ++ [n] in
        if bool_decide (p ∈ ds) then makedirs_go fs ds p rest
        else if bool_decide (is_Some (fs !! p)) then None
        else makedirs_go fs ({[ p ]} ∪ ds) p rest
  end.

(** [os.makedirs(name)]: creates the missing directories of [name]; an
    [OSError] when a file is in the way or the last directory is already
    there.  (For a name without [..] components this is the library's
    behaviour; the script calls it on a name that does not exist.) *)
Definition os_makedirs (name : string) : M unit :=
  fun st =>
    let start := if Py.startswith "/" name then [] else cwd st in
    match makedirs_go (files st) (dirs st) start (Py.split "/" name) with
    | Some (ds, leaf) =>
        let st' := mkState (cwd st) (files st) ds (clock st) in
        if bool_decide (leaf ∈ dirs st)
        then mkResult (Raised OSError) st' [EMakedirs name]
        else mkResult (Returned tt) st' [EMakedirs name]
    | None => mkResult (Raised OSError) st [EMakedirs name]
    end.

(** [os.chdir(name)] *)
Definition os_chdir (name : string) : M unit :=
  fun st =>
    match resolve st name with
    | Some p =>
        if bool_decide (p ∈ dirs st)
        then mkResult (Returned tt) (mkState p (files st) (dirs st) (clock st))
               [EChdir name]
        else mkResult (Raised OSError) st []
    | None => mkResult (Raised OSError) st []
    end.

(** [with open(name, 'r') as f: for line in f: ...]: the lines of the file. *)
Definition open_read_lines (name : string) : M (list string) :=
  fun st =>
    match resolve st name with
    | Some p =>
        match files st !! p with
        | Some c => mkResult (Returned (Py.file_lines c)) st []
        | None => mkResult (Raised OSError) st []
        end
    | None => mkResult (Raised OSError) st []
    end.

(** [with open(name, 'wb') as f: f.write(bytes)] *)
Definition open_write (name : string) (bytes : string) : M unit :=
  fun st =>
    match resolve st name with
    | Some p =>
        if bool_decide (p ∈ dirs st) then mkResult (Raised OSError) st []
        else mkResult (Returned tt)
               (mkState (cwd st) (<[p := bytes]> (files st)) (dirs st) (clock st))
               [EWrite p bytes]
    | None => mkResult (Raised OSError) st []
    end.

(** ** The script *)

Definition XERO_TOKEN_URL : string := "https://identity.xero.com/connect/token".
Definition XERO_CONNECTIONS_URL : string := "https://api.xero.com/connections".
Definition XERO_CONTACTS_URL : string := "https://api.xero.com/api.xro/2.0/Contacts".
Definition XERO_INVOICES_URL : string := "https://api.xero.com/api.xro/2.0/Invoices".

Definition NL : string := String Py.LF EmptyString.

(** The double quote character, as a string. *)
Definition DQ : string := String (ascii_of_nat 34) EmptyString.

(** [len(l)] *)
Definition len {A} (l : list A) : Z := Z.of_nat (length l).

(** The name a downloaded attachment is stored under. *)
Definition safe_name (file_name : string) : string :=
  Py.replace_char "\" "_" (Py.replace_char "/" "_" file_name).

Definition unique_name (inv_num file_name : string) : string :=
  inv_num +:+ "_" +:+ safe_name file_name.

(** The filter expression of the invoice query. *)
Definition where_clause (contact_id : string) (year month day : nat) : string :=
  "Contact.ContactID==Guid(" +:+ DQ +:+ contact_id +:+ DQ +:+ ") AND Date>=DateTime("
  +:+ Py.str_int (Z.of_nat year) +:+ "," +:+ Py.fmt_02d month +:+ ","
  +:+ Py.fmt_02d day +:+ ")".

Section Script.

Context (w : World) (cfg : Config).

(** The file the logging handler appends to.  [logging.basicConfig] runs
    at import time with the relative name [xero_download.log]; the handler
    opens it there and then and keeps its absolute path, so a later
    [os.chdir] does not move it. *)
Definition log_path : Path := start_dir cfg ++ [LOG_NAME].

(** One record in the format ['%(asctime)s - %(levelname)s - %(message)s']. *)
Definition log_record (time : nat) (l : Level) (msg : string) : string :=
  asctime w time +:+ " - " +:+ levelname l +:+ " - " +:+ msg +:+ NL.

Definition logger (l : Level) (msg : string) : M unit :=
  fun st =>
    let old := default EmptyString (files st !! log_path) in
    mkResult (Returned tt)
      (mkState (cwd st)
         (<[log_path := old +:+ log_record (clock st) l msg]> (files st))
         (dirs st) (S (clock st)))
      [ELog l msg].

Definition logger_info : string -> M unit := logger INFO.
Definition logger_error : string -> M unit := logger ERROR.

(** [print(msg); logger.info(msg)] and [print(msg); logger.error(msg)] *)
Definition say (l : Level) (msg : string) : M unit :=
  print msg ;;; logger l msg.

Definition send (r : Request) : M Response :=
  fun st =>
    match server w r with
    | inr resp => mkResult (Returned resp) st [ERequest r]
    | inl e => mkResult (Raised e) st [ERequest r]
    end.

Definition requests_post (u : string) (hs : list (string * string))
    (a : string * string) (d : list (string * string)) : M Response :=
  send (mkRequest POST u hs None (Some a) d).

Definition requests_get (u : string) (hs : list (string * string))
    (ps : option (list (string * PyVal))) : M Response :=
  send (mkRequest GET u hs ps None []).

(** [response.json()] *)
Definition response_json (r : Response) : M Json :=
  match json r with
  | Some j => ret j
  | None => raise JSONDecodeError
  end.

(** [j.get(key, [])] for one of the list-valued keys. *)
Definition dict_get {A} (key : Dict -> option (list A)) (j : Json) : M (list A) :=
  match j with
  | JDict d => ret (default [] (key d))
  | JList _ => raise AttributeError
  end.

(** [f"... {response.status_code} - {response.text}"] *)
Definition failure (what : string) (r : Response) : string :=
  what +:+ Py.str_int (status_code r) +:+ " - " +:+ text r.

Definition get_token : M string :=
  let hs := [("Content-Type", "application/x-www-form-urlencoded")] in
  let d := [("grant_type", "client_credentials");
            ("scopes", "accounting.transactions accounting.attachments accounting.contacts")] in
  response <- requests_post XERO_TOKEN_URL hs (CLIENT_ID cfg, CLIENT_SECRET cfg) d ;;
  if (status_code response =? 200)%Z then
    say INFO "Obtained token successfully" ;;;
    j <- response_json response ;;
    match j with
    | JDict d =>
        match access_token d with
        | Some t => ret t
        | None => raise (KeyError "access_token")
        end
    | JList _ => raise TypeError
    end
  else
    say ERROR (failure "Failed to fetch token: " response) ;;;
    sys_exit 1.

(** [if connections:] *)
Definition truthy (j : Json) : bool :=
  match j with
  | JList l => match l with [] => false | _ => true end
  | JDict d =>
      bool_decide (is_Some (access_token d)) || bool_decide (is_Some (Contacts d))
      || bool_decide (is_Some (Invoices d)) || bool_decide (is_Some (Attachments d))
  end.

Definition get_tenant_id (token : string) : M string :=
  let hs := [("Authorization", "Bearer " +:+ token); ("Accept", "application/json")] in
  response <- requests_get XERO_CONNECTIONS_URL hs None ;;
  if (status_code response =? 200)%Z then
    connections <- response_json response ;;
    if truthy connections then
      match connections with
      | JList (c :: _) =>
          match tenantId c with
          | Some tenant_id =>
              say INFO ("Using tenant ID: " +:+ tenant_id) ;;;
              ret tenant_id
          | None => raise (KeyError "tenantId")
          end
      | _ => raise KeyError0
      end
    else
      say ERROR "No tenant found in connections" ;;;
      sys_exit 1
  else
    say ERROR (failure "Failed to fetch tenant ID: " response) ;;;
    sys_exit 1.

Definition get_xero_api (u token tenant_id : string)
    (ps : option (list (string * PyVal))) : M Response :=
  let hs := [("Authorization", "Bearer " +:+ token); ("Accept", "application/json");
             ("Xero-tenant-id", tenant_id)] in
  requests_get u hs ps.

Definition get_contact_id (token tenant_id contact_name : string) : M string :=
  let ps := [("where", PStr ("Name==" +:+ DQ +:+ contact_name +:+ DQ))] in
  response <- get_xero_api XERO_CONTACTS_URL token tenant_id (Some ps) ;;
  if (status_code response =? 200)%Z then
    j <- response_json response ;;
    contacts <- dict_get Contacts j ;;
    match contacts with
    | c :: _ =>
        match ContactID c with
        | Some contact_id =>
            say INFO ("Found '" +:+ contact_name +:+ "' with ContactID: " +:+ contact_id) ;;;
            ret contact_id
        | None => raise (KeyError "ContactID")
        end
    | [] =>
        say ERROR ("No contact found with name '" +:+ contact_name +:+ "'") ;;;
        sys_exit 1
    end
  else
    say ERROR (failure "Failed to fetch contact details: " response) ;;;
    sys_exit 1.

(** The [params] of the request for one page of invoices. *)
Definition invoice_params (contact_id : string) (page : Z) : list (string * PyVal) :=
  [("where", PStr (where_clause contact_id (start_year cfg) (start_month cfg) (start_day cfg)));
   ("order", PStr "Date DESC");
   ("page", PInt page)].

(** [start_date.strftime('%Y-%m-%d')] (for a year of four digits). *)
Definition strftime_ymd (year month day : nat) : string :=
  Py.str_int (Z.of_nat year) +:+ "-" +:+ Py.fmt_02d month +:+ "-" +:+ Py.fmt_02d day.

(** The [while True] loop of [get_invoices_for_contact], from the state
    [page], [invoices]; [fuel] bounds the number of iterations. *)
Fixpoint fetch_pages (fuel : nat) (token tenant_id contact_id : string)
    (page : Z) (invoices : list Invoice) : M (list Invoice) :=
  match fuel with
  | O => out_of_fuel
  | S fuel' =>
      response <- get_xero_api XERO_INVOICES_URL token tenant_id
                    (Some (invoice_params contact_id page)) ;;
      if (status_code response =? 200)%Z then
        j <- response_json response ;;
        page_invoices <- dict_get Invoices j ;;
        match page_invoices with
        | [] => ret invoices                                   (* break *)
        | _ =>
            let invoices' := invoices ++ page_invoices in
            say INFO ("Fetched page " +:+ Py.str_int page +:+ ": "
                      +:+ Py.str_int (len page_invoices)
                      +:+ " invoices (total so far: "
                      +:+ Py.str_int (len invoices') +:+ ")") ;;;
            sleep 1 ;;;
            fetch_pages fuel' token tenant_id contact_id (page + 1)%Z invoices'
        end
      else
        say ERROR (failure "Failed to fetch invoices: " response) ;;;
        sys_exit 1
  end.

Definition get_invoices_for_contact (fuel : nat)
    (token tenant_id contact_id : string) : M (list Invoice) :=
  invoices <- fetch_pages fuel token tenant_id contact_id 1 [] ;;
  say INFO ("Found " +:+ Py.str_int (len invoices) +:+ " invoices for '"
            +:+ SUPPLIER_NAME cfg +:+ "' from "
            +:+ strftime_ymd (start_year cfg) (start_month cfg) (start_day cfg)
            +:+ " to " +:+ strftime_ymd 2025 3 20) ;;;
  ret invoices.

(** The body of the loop over the lines of the log in
    [load_processed_invoices]. *)
Definition scan_processed (processed : gset string) (line : string) : gset string :=
  if Py.contains "Processing invoice:" line then
    let parts := Py.split "ID: " line in
    match parts !! 1 with                        (* [len(parts) > 1] *)
    | Some part =>
        let invoice_id := Py.strip (default EmptyString (Py.split "," part !! 0)) in
        {[ invoice_id ]} ∪ processed
    | None => processed
    end
  else processed.

Definition load_processed_invoices : M (gset string) :=
  there <- os_path_exists LOG_NAME ;;
  if there then
    lines <- open_read_lines LOG_NAME ;;
    ret (fold_left scan_processed lines ∅)
  else ret ∅.

(** The body of the loop in [load_downloaded_attachments]. *)
Definition scan_downloaded (downloaded : gset string) (line : string) : gset string :=
  if Py.contains "Downloaded attachment:" line then
    let parts := Py.split "Downloaded attachment: " line in
    match parts !! 1 with
    | Some part => {[ Py.strip part ]} ∪ downloaded
    | None => downloaded
    end
  else downloaded.

Definition load_downloaded_attachments : M (gset string) :=
  there <- os_path_exists LOG_NAME ;;
  if there then
    lines <- open_read_lines LOG_NAME ;;
    ret (fold_left scan_downloaded lines ∅)
  else ret ∅.

Definition download_invoice_attachment (token tenant_id invoice_id file_name inv_num : string)
    (downloaded_set : gset string) : M unit :=
  let safe_file_name := Py.replace_char "\" "_" (Py.replace_char "/" "_" file_name) in
  let unique_file_name := inv_num +:+ "_" +:+ safe_file_name in
  if bool_decide (unique_file_name ∈ downloaded_set) then
    print ("Skipping " +:+ unique_file_name +:+ " - already downloaded") ;;;
    logger_info ("Skipped " +:+ unique_file_name +:+ " - already downloaded")
  else
    let u := XERO_INVOICES_URL +:+ "/" +:+ invoice_id +:+ "/Attachments/" +:+ file_name in
    let hs := [("Authorization", "Bearer " +:+ token);
               ("Accept", "application/octet-stream");
               ("Xero-tenant-id", tenant_id)] in
    response <- requests_get u hs None ;;
    (if (status_code response =? 200)%Z then
       open_write unique_file_name (content response) ;;;
       say INFO ("Downloaded attachment: " +:+ unique_file_name)
     else
       say ERROR (failure ("Failed to download " +:+ file_name +:+ ": ") response)) ;;;
    sleep 1.

(** The body of the loop over the attachments of one invoice. *)
Definition attachment_step (token tenant_id inv_id inv_num : string)
    (downloaded_set : gset string) (attachment : Attachment) : M unit :=
  match FileName attachment with
  | Some file_name =>
      say INFO ("Found attachment: " +:+ file_name) ;;;
      download_invoice_attachment token tenant_id inv_id file_name inv_num downloaded_set
  | None => raise (KeyError "FileName")
  end.

(** The body of the loop over the invoices in [main];
    [new_invoices_processed] is the counter it updates. *)
Definition invoice_step (token tenant_id : string)
    (processed_invoices downloaded_set : gset string)
    (inv : Invoice) (new_invoices_processed : Z) : M Z :=
  match InvoiceID inv with
  | None => raise (KeyError "InvoiceID")
  | Some inv_id =>
      let inv_num := default inv_id (InvoiceNumber inv) in
      let date := default "N/A" (DateString inv) in
      if bool_decide (inv_id ∈ processed_invoices) then
        print ("Skipping invoice: " +:+ inv_num +:+ " (ID: " +:+ inv_id
               +:+ ") - already processed") ;;;
        logger_info ("Skipped invoice: " +:+ inv_num +:+ " (ID: " +:+ inv_id
                     +:+ ") - already processed") ;;;
        ret new_invoices_processed                              (* continue *)
      else
        say INFO ("Processing invoice: " +:+ inv_num +:+ " (ID: " +:+ inv_id
                  +:+ ", Date: " +:+ date +:+ ")") ;;;
        let attachments_url := XERO_INVOICES_URL +:+ "/" +:+ inv_id +:+ "/Attachments" in
        response <- get_xero_api attachments_url token tenant_id None ;;
        if (status_code response =? 200)%Z then
          j <- response_json response ;;
          attachments <- dict_get Attachments j ;;
          match attachments with
          | [] => say INFO ("No attachments found for invoice " +:+ inv_num)
          | _ => for_each attachments
                   (attachment_step token tenant_id inv_id inv_num downloaded_set)
          end ;;;
          ret (new_invoices_processed + 1)%Z
        else
          say ERROR (failure ("Failed to fetch attachments for " +:+ inv_num +:+ ": ")
                       response) ;;;
          ret new_invoices_processed
  end.

(** The part of [main] from the change of directory on. *)
Definition download_all (token tenant_id : string) (invoices : list Invoice) : M unit :=
  let supplier_folder :=
    os_path_join "invoice_attachments" (Py.replace_char " " "_" (SUPPLIER_NAME cfg)) in
  there <- os_path_exists supplier_folder ;;
  (if there then ret tt else os_makedirs supplier_folder) ;;;
  os_chdir supplier_folder ;;;
  processed_invoices <- load_processed_invoices ;;
  downloaded_set <- load_downloaded_attachments ;;
  new_invoices_processed <-
    for_fold invoices (invoice_step token tenant_id processed_invoices downloaded_set) 0%Z ;;
  say INFO ("Processed " +:+ Py.str_int new_invoices_processed +:+ " new invoices.").

Definition main (fuel : nat) : M unit :=
  try_except
    (print "Fetching access token from Xero..." ;;;
     logger_info "Starting Xero invoice attachment downloader..." ;;;
     token <- get_token ;;
     tenant_id <- get_tenant_id token ;;
     contact_id <- get_contact_id token tenant_id (SUPPLIER_NAME cfg) ;;
     invoices <- get_invoices_for_contact fuel token tenant_id contact_id ;;
     download_all token tenant_id invoices)
    (fun err =>
       say ERROR ("Error occurred: " +:+ str_exn w err) ;;;
       sys_exit 1).

(** The [if __name__ == "__main__":] block. *)
Definition script (fuel : nat) : M unit :=
  print "Starting Xero invoice attachment downloader..." ;;;
  main fuel ;;;
  print "Download process completed." ;;;
  logger_info "Download process completed.".

End Script.

(** ** Observations on a run *)

(** The requests among the events, in order. *)
Definition requests_of (evs : list Event) : list Request :=
  omap (fun e => match e with ERequest r => Some r | _ => None end) evs.

(** The files written by [open(name, 'wb')], in order. *)
Definition writes_of (evs : list Event) : list Path :=
  omap (fun e => match e with EWrite p _ => Some p | _ => None end) evs.

(** The event is not a request, or it is a [GET]. *)
Definition get_only (e : Event) : Prop :=
  match e with ERequest r => meth r = GET | _ => True end.

(** The requests of the script, by name. *)
Definition token_request (cfg : Config) : Request :=
  mkRequest POST XERO_TOKEN_URL
    [("Content-Type", "application/x-www-form-urlencoded")] None
    (Some (CLIENT_ID cfg, CLIENT_SECRET cfg))
    [("grant_type", "client_credentials");
     ("scopes", "accounting.transactions accounting.attachments accounting.contacts")].

Definition api_headers (token tenant_id : string) : list (string * string) :=
  [("Authorization", "Bearer " +:+ token); ("Accept", "application/json");
   ("Xero-tenant-id", tenant_id)].

Definition connections_request (token : string) : Request :=
  mkRequest GET XERO_CONNECTIONS_URL
    [("Authorization", "Bearer " +:+ token); ("Accept", "application/json")]
    None None [].

Definition contact_request (token tenant_id contact_name : string) : Request :=
  mkRequest GET XERO_CONTACTS_URL (api_headers token tenant_id)
    (Some [("where", PStr ("Name==" +:+ DQ +:+ contact_name +:+ DQ))]) None [].

Definition page_request (cfg : Config) (token tenant_id contact_id : string) (page : Z) : Request :=
  mkRequest GET XERO_INVOICES_URL (api_headers token tenant_id)
    (Some (invoice_params cfg contact_id page)) None [].

Definition attachments_request (token tenant_id inv_id : string) : Request :=
  mkRequest GET (XERO_INVOICES_URL +:+ "/" +:+ inv_id +:+ "/Attachments")
    (api_headers token tenant_id) None None [].

Definition download_request (token tenant_id invoice_id file_name : string) : Request :=
  mkRequest GET
    (XERO_INVOICES_URL +:+ "/" +:+ invoice_id +:+ "/Attachments/" +:+ file_name)
    [("Authorization", "Bearer " +:+ token);
     ("Accept", "application/octet-stream");
     ("Xero-tenant-id", tenant_id)] None None [].

(** The state a later run of the script starts in: the files and
    directories are as the earlier run left them, the process starts
    again in the start directory. *)
Definition next_run (cfg : Config) (st : State) : State :=
  mkState (start_dir cfg) (files st) (dirs st) (clock st).


(** The server answers the request for page [page] with status 200 and
    the invoice list [invs] (an absent [Invoices] key is an empty list). *)
Definition page_is (w : World) (cfg : Config) (token tenant_id contact_id : string)
    (page : Z) (invs : list Invoice) : Prop :=
  exists resp d,
    server w (page_request cfg token tenant_id contact_id page) = inr resp
    /\ status_code resp = 200%Z
    /\ json resp = Some (JDict d)
    /\ default [] (Invoices d) = invs.

(** The loop stops at page [page]: when the server answers the request
    for it with status 200 and a JSON object, the invoice list is empty. *)
Definition page_stops (w : World) (cfg : Config) (token tenant_id contact_id : string)
    (page : Z) : Prop :=
  forall resp d,
    server w (page_request cfg token tenant_id contact_id page) = inr resp ->
    status_code resp = 200%Z ->
    json resp = Some (JDict d) ->
    default [] (Invoices d) = [].

(** [n] page numbers from [first] on: first, first + 1, ... *)
Fixpoint page_numbers (first : Z) (n : nat) : list Z :=
  match n with
  | O => []
  | S k => first :: page_numbers (first + 1)%Z k
  end.

(** The event is not a request, or it is a request to the invoices
    endpoint whose [where] parameter is the filter on contact and date. *)
Definition carries_filter (cfg : Config) (contact_id : string) (e : Event) : Prop :=
  match e with
  | ERequest q =>
      url q = XERO_INVOICES_URL
      /\ exists page,
           params q =
           Some [("where", PStr (where_clause contact_id (start_year cfg)
                                   (start_month cfg) (start_day cfg)));
                 ("order", PStr "Date DESC");
                 ("page", PInt page)]
  | _ => True
  end.

(** ** Reading the claims on the log scanners word for word

    The stripped texts between an occurrence of "ID: " and the next
    comma, and the stripped rests of the line after an occurrence of
    "Downloaded attachment: ", for every occurrence there is. *)







(** What the scanners do, said without the code: [sep] occurs in [s];
    [a] and [b] are the texts before and after the first occurrence of
    [sep] in [s]; [t] is [s] up to the first occurrence of [sep], or all
    of [s] when there is none. *)
Definition occurs (sep s : string) : Prop :=
  exists a b, s = a +:+ sep +:+ b.

Definition first_cut (sep s a b : string) : Prop :=
  s = a +:+ sep +:+ b
  /\ forall a' b', s = a' +:+ sep +:+ b' -> String.length a <= String.length a'.

Definition upto (sep s t : string) : Prop :=
  (~ occurs sep s /\ t = s) \/ exists b, first_cut sep s t b.

(** The text a "Processing invoice:" line adds to the processed set. *)
Definition processed_entry (line x : string) : Prop :=
  occurs "Processing invoice:" line
  /\ exists a b t u,
       first_cut "ID: " line a b /\ upto "ID: " b t /\ upto "," t u
       /\ x = Py.strip u.

(** The text a "Downloaded attachment: " line adds to the downloaded set. *)
Definition downloaded_entry (line x : string) : Prop :=
  exists a b t,
    first_cut "Downloaded attachment: " line a b
    /\ upto "Downloaded attachment: " b t
    /\ x = Py.strip t.

(** ** Concrete runs *)

Module Demo.

Definition cfg : Config := mkConfig "client" "secret" "Acme Ltd" 2019 7 5 ["app"].

(** The start directory, with the log file the logging set-up has made. *)
Definition st0 : State :=
  mkState ["app"] {[ ["app"; LOG_NAME] := EmptyString ]} {[ []; ["app"] ]} 0.

Definition ok (j : Json) : Response := mkResponse 200 "OK" EmptyString (Some j).
Definition no_keys : Dict := mkDict None None None None.

Definition accepts_octets (r : Request) : bool :=
  existsb (fun h => String.eqb (snd h) "application/octet-stream") (headers r).

(** A server with the pages of invoices [pages]; every invoice has the
    attachments [atts]; the attachment list is answered with status
    [meta_status] and a download with [dl_status]. *)
Definition server (pages : list (list Invoice)) (atts : list Attachment)
    (meta_status dl_status : Z) (r : Request) : Exn + Response :=
  match meth r with
  | POST => inr (ok (JDict (mkDict (Some "tok") None None None)))
  | GET =>
      if String.eqb (url r) XERO_CONNECTIONS_URL then
        inr (ok (JList [mkConnection (Some "tenant")]))
      else if String.eqb (url r) XERO_CONTACTS_URL then
        inr (ok (JDict (mkDict None (Some [mkContact (Some "c1")]) None None)))
      else if String.eqb (url r) XERO_INVOICES_URL then
        match params r with
        | Some [_; _; (_, PInt page)] =>
            inr (ok (JDict (mkDict None None
                              (Some (nth (Z.to_nat (page - 1)) pages [])) None)))
        | _ => inr (ok (JDict no_keys))
        end
      else if accepts_octets r then
        inr (mkResponse dl_status "body" "PDF" None)
      else
        inr (mkResponse meta_status "body" EmptyString
               (Some (JDict (mkDict None None None (Some atts)))))
  end.

Definition world (pages : list (list Invoice)) (atts : list Attachment)
    (meta_status dl_status : Z) : World :=
  mkWorld (server pages atts meta_status dl_status)
    (fun n => "t" +:+ Py.str_int (Z.of_nat n)) (fun _ => "error").

Definition inv1 : Invoice := mkInvoice (Some "id1") (Some "INV-1") (Some "2020-01-01").
Definition att1 : Attachment := mkAttachment (Some "report.pdf").

(** Everything succeeds. *)
Definition w_ok : World := world [[inv1]] [att1] 200 200.
(** The attachment list of the invoice is answered with status 500. *)
Definition w_meta_fails : World := world [[inv1]] [att1] 500 200.

(** Invoice numbers with a slash in them. *)
Definition inv_up : Invoice := mkInvoice (Some "id2") (Some "../x") (Some "2020-01-01").
Definition inv_slash : Invoice := mkInvoice (Some "id3") (Some "INV/2024/001") (Some "2020-01-01").
Definition w_up : World := world [[inv_up]] [att1] 200 200.
Definition w_slash : World := world [[inv_slash]] [att1] 200 200.

(** Two pages of invoices. *)
Definition inv2 : Invoice := mkInvoice (Some "id4") None None.
Definition w_two_pages : World := world [[inv1]; [inv2; inv_up]] [] 200 200.

Definition supplier_dir : Path := ["app"; "invoice_attachments"; "Acme_Ltd"].



End Demo.

(** ** Further observations *)

(** The outcome is no exit, or an exit with status 1. *)
Definition exits_with_one {A} (o : Outcome A) : Prop :=
  forall c, o = Exited c -> c = 1%Z.

(** The event is a print, a log record, a request or a sleep: it touches
    neither a file nor a directory. *)
Definition off_disk (e : Event) : Prop :=
  match e with
  | EMakedirs _ | EChdir _ | EWrite _ _ => False
  | _ => True
  end.

(** The message [download_invoice_attachment] prints and logs after a
    download. *)
Definition downloaded_message (unique_file_name : string) : string :=
  "Downloaded attachment: " +:+ unique_file_name.

(** Whatever the computation returns has the property [P]. *)
Definition returns_in {A} (P : A -> Prop) (o : Outcome A) : Prop :=
  forall a, o = Returned a -> P a.

(** The server answers the request for page [page] with a status other
    than 200. *)
Definition page_fails (w : World) (cfg : Config) (token tenant_id contact_id : string)
    (page : Z) : Prop :=
  exists resp,
    server w (page_request cfg token tenant_id contact_id page) = inr resp
    /\ status_code resp <> 200%Z.

(** * Properties *)

(** ** The string primitives on examples *)

Example split_ex1 : Py.split ", " "a, b, c" = ["a"; "b"; "c"].
Proof. reflexivity. Qed.

Example split_ex2 : Py.split "ab" "xabab" = ["x"; EmptyString; EmptyString].
Proof. reflexivity. Qed.

Example split_ex3 : Py.split "," EmptyString = [EmptyString].
Proof. reflexivity. Qed.

Example strip_ex1 : Py.strip ("  a b " +:+ NL) = "a b".
Proof. reflexivity. Qed.

Example file_lines_ex1 :
  Py.file_lines ("a" +:+ String Py.CR (String Py.LF "b")) = ["a" +:+ NL; "b"].
Proof. reflexivity. Qed.

Example fmt_ex1 :
  Py.fmt_02d 7 = "07" /\ Py.fmt_02d 12 = "12" /\ Py.str_int 404 = "404".
Proof. repeat split; reflexivity. Qed.

Example unique_name_ex1 : unique_name "INV-1" "a/b\c.pdf" = "INV-1_a_b_c.pdf".
Proof. reflexivity. Qed.

(** ** The monad *)

Lemma bind_run {A B} (m : M A) (f : A -> M B) st a st1 ev1 :
  m st = mkResult (Returned a) st1 ev1 ->
  bind m f st = mkResult (outcome (f a st1)) (final (f a st1)) (ev1 ++ events (f a st1)).
Proof. intros H. unfold bind. rewrite H. reflexivity. Qed.



(** A property of every event of a computation is kept by sequencing. *)
Lemma bind_events {A B} (P : Event -> Prop) (m : M A) (f : A -> M B) st :
  Forall P (events (m st)) ->
  (forall a st', Forall P (events (f a st'))) ->
  Forall P (events (bind m f st)).
Proof.
  intros Hm Hf. unfold bind.
  destruct (outcome (m st)); cbn [events]; auto.
  apply Forall_app. split; auto.
Qed.

Lemma try_except_events {A} (P : Event -> Prop) (m : M A) (h : Exn -> M A) st :
  Forall P (events (m st)) ->
  (forall e st', Forall P (events (h e st'))) ->
  Forall P (events (try_except m h st)).
Proof.
  intros Hm Hh. unfold try_except.
  destruct (outcome (m st)); cbn [events]; auto.
  apply Forall_app. split; auto.
Qed.

Lemma for_each_events {A} (P : Event -> Prop) (l : list A) (body : A -> M unit) :
  (forall x st, Forall P (events (body x st))) ->
  forall st, Forall P (events (for_each l body st)).
Proof.
  intros Hb. induction l as [|x l IH]; intros st; cbn [for_each].
  - constructor.
  - apply bind_events; auto.
Qed.

Lemma for_fold_events {A S} (P : Event -> Prop) (l : list A) (body : A -> S -> M S) :
  (forall x s st, Forall P (events (body x s st))) ->
  forall s st, Forall P (events (for_fold l body s st)).
Proof.
  intros Hb. induction l as [|x l IH]; intros s st; cbn [for_fold].
  - constructor.
  - apply bind_events; auto.
Qed.

Section Effects.

Context (w : World) (cfg : Config).

Lemma say_run l msg st :
  say w cfg l msg st =
  mkResult (Returned tt) (final (logger w cfg l msg st)) [EPrint msg; ELog l msg].
Proof. reflexivity. Qed.

Lemma send_run r resp st :
  server w r = inr resp ->
  send w r st = mkResult (Returned resp) st [ERequest r].
Proof. intros H. unfold send. rewrite H. reflexivity. Qed.

(** Events that are no requests satisfy every property of requests. *)
Lemma say_events (P : Event -> Prop) l msg st :
  P (EPrint msg) -> P (ELog l msg) -> Forall P (events (say w cfg l msg st)).
Proof. intros. rewrite say_run. cbn. auto. Qed.

Lemma send_events (P : Event -> Prop) r st :
  P (ERequest r) -> Forall P (events (send w r st)).
Proof. intros. unfold send. destruct (server w r); cbn; auto. Qed.

End Effects.

(** ** Skipping recorded downloads *)

Section Download.

Context (w : World) (cfg : Config).


End Download.


(** ** Where the events of a composed computation come from *)

Lemma bind_events_split {A B} (m : M A) (f : A -> M B) st :
  exists rest,
    events (bind m f st) = events (m st) ++ rest
    /\ (rest = [] \/ exists a st', rest = events (f a st')).
Proof.
  unfold bind. destruct (outcome (m st)) as [a| | |]; cbn [events].
  - exists (events (f a (final (m st)))). split; eauto.
  - exists []. rewrite app_nil_r. auto.
  - exists []. rewrite app_nil_r. auto.
  - exists []. rewrite app_nil_r. auto.
Qed.

Lemma try_except_events_split {A} (m : M A) (h : Exn -> M A) st :
  exists rest,
    events (try_except m h st) = events (m st) ++ rest
    /\ (rest = [] \/ exists e st', rest = events (h e st')).
Proof.
  unfold try_except. destruct (outcome (m st)) as [a| |e|]; cbn [events].
  - exists []. rewrite app_nil_r. auto.
  - exists []. rewrite app_nil_r. auto.
  - exists (events (h e (final (m st)))). split; eauto.
  - exists []. rewrite app_nil_r. auto.
Qed.

Lemma requests_of_app evs1 evs2 :
  requests_of (evs1 ++ evs2) = requests_of evs1 ++ requests_of evs2.
Proof. apply omap_app. Qed.

Lemma requests_of_get_only evs :
  Forall get_only evs -> Forall (fun q => meth q = GET) (requests_of evs).
Proof.
  induction 1 as [|e evs He _ IH]; cbn.
  - constructor.
  - destruct e; cbn; auto.
Qed.

(** ** Proving a property of every event, following the code *)

Section EventsOf.

Context (w : World) (cfg : Config) (P : Event -> Prop).

Lemma ret_events {A} (a : A) st : Forall P (events (ret a st)).
Proof. constructor. Qed.

Lemma raise_events {A} e st : Forall P (events (@raise A e st)).
Proof. constructor. Qed.

Lemma sys_exit_events {A} c st : Forall P (events (@sys_exit A c st)).
Proof. constructor. Qed.

Lemma out_of_fuel_events {A} st : Forall P (events (@out_of_fuel A st)).
Proof. constructor. Qed.

Lemma emit_events e st : P e -> Forall P (events (emit e st)).
Proof. intros. cbn. auto. Qed.

Lemma logger_events l msg st :
  P (ELog l msg) -> Forall P (events (logger w cfg l msg st)).
Proof. intros. cbn. auto. Qed.

Lemma response_json_events r st : Forall P (events (response_json r st)).
Proof. unfold response_json. destruct (json r); constructor. Qed.

Lemma dict_get_events {A} (key : Dict -> option (list A)) j st :
  Forall P (events (dict_get key j st)).
Proof. destruct j; constructor. Qed.

Lemma os_path_exists_events name st : Forall P (events (os_path_exists name st)).
Proof. constructor. Qed.

Lemma open_read_lines_events name st : Forall P (events (open_read_lines name st)).
Proof.
  unfold open_read_lines. destruct (resolve st name); [|constructor].
  destruct (files st !! p); constructor.
Qed.

Lemma os_makedirs_events name st :
  P (EMakedirs name) -> Forall P (events (os_makedirs name st)).
Proof.
  intros. unfold os_makedirs.
  destruct (makedirs_go _ _ _ _) as [[ds leaf]|]; [|cbn; auto].
  destruct (bool_decide _); cbn; auto.
Qed.

Lemma os_chdir_events name st :
  P (EChdir name) -> Forall P (events (os_chdir name st)).
Proof.
  intros. unfold os_chdir. destruct (resolve st name); [|constructor].
  destruct (bool_decide _); cbn; auto.
Qed.

Lemma open_write_events name bytes st :
  (forall p, P (EWrite p bytes)) -> Forall P (events (open_write name bytes st)).
Proof.
  intros. unfold open_write. destruct (resolve st name); [|constructor].
  destruct (bool_decide _); cbn; auto.
Qed.

End EventsOf.

(** One step of such a proof; [atom] proves the property of a single
    event. *)
Ltac events_step atom :=
  lazymatch goal with
  | |- Forall _ (events (bind _ _ _)) => apply bind_events; [|intros]
  | |- Forall _ (events (say _ _ _ _ _)) => apply say_events; atom
  | |- Forall _ (events (send _ _ _)) => apply send_events; atom
  | |- Forall _ (events (ret _ _)) => apply ret_events
  | |- Forall _ (events (raise _ _)) => apply raise_events
  | |- Forall _ (events (sys_exit _ _)) => apply sys_exit_events
  | |- Forall _ (events (out_of_fuel _)) => apply out_of_fuel_events
  | |- Forall _ (events (print _ _)) => apply emit_events; atom
  | |- Forall _ (events (sleep _ _)) => apply emit_events; atom
  | |- Forall _ (events (logger_info _ _ _ _)) => apply logger_events; atom
  | |- Forall _ (events (response_json _ _)) => apply response_json_events
  | |- Forall _ (events (dict_get _ _ _)) => apply dict_get_events
  | |- Forall _ (events (os_path_exists _ _)) => apply os_path_exists_events
  | |- Forall _ (events (open_read_lines _ _)) => apply open_read_lines_events
  | |- Forall _ (events (os_makedirs _ _)) => apply os_makedirs_events; atom
  | |- Forall _ (events (os_chdir _ _)) => apply os_chdir_events; atom
  | |- Forall _ (events (open_write _ _ _)) => apply open_write_events; intros; atom
  | |- Forall _ (events ((if ?b then _ else _) _)) => destruct b
  | |- Forall _ (events (match ?x with _ => _ end _)) => destruct x
  end.

Ltac events_of atom := repeat (events_step atom).

Section GetOnly.

Context (w : World) (cfg : Config).

Lemma get_tenant_id_get_only token st :
  Forall get_only (events (get_tenant_id w cfg token st)).
Proof.
  unfold get_tenant_id, requests_get. cbv zeta.
  events_of ltac:(exact I || reflexivity).
Qed.

Lemma get_contact_id_get_only token tenant_id name st :
  Forall get_only (events (get_contact_id w cfg token tenant_id name st)).
Proof.
  unfold get_contact_id, get_xero_api, requests_get. cbv zeta.
  events_of ltac:(exact I || reflexivity).
Qed.

Lemma fetch_pages_get_only fuel token tenant_id contact_id :
  forall page invoices st,
    Forall get_only
      (events (fetch_pages w cfg fuel token tenant_id contact_id page invoices st)).
Proof.
  induction fuel as [|fuel IH]; intros page invoices st; cbn [fetch_pages].
  - constructor.
  - unfold get_xero_api, requests_get. cbv zeta.
    events_of ltac:(exact I || reflexivity). apply IH.
Qed.

Lemma get_invoices_get_only fuel token tenant_id contact_id st :
  Forall get_only
    (events (get_invoices_for_contact w cfg fuel token tenant_id contact_id st)).
Proof.
  unfold get_invoices_for_contact.
  apply bind_events; [apply fetch_pages_get_only|intros].
  events_of ltac:(exact I || reflexivity).
Qed.

Lemma download_get_only token tenant_id invoice_id file_name inv_num ds st :
  Forall get_only
    (events (download_invoice_attachment w cfg token tenant_id invoice_id
               file_name inv_num ds st)).
Proof.
  unfold download_invoice_attachment, requests_get. cbv zeta.
  events_of ltac:(exact I || reflexivity).
Qed.

Lemma invoice_step_get_only token tenant_id ps ds inv n st :
  Forall get_only (events (invoice_step w cfg token tenant_id ps ds inv n st)).
Proof.
  unfold invoice_step, get_xero_api, requests_get. cbv zeta.
  events_of ltac:(exact I || reflexivity).
  apply for_each_events. intros x st1. unfold attachment_step.
  events_of ltac:(exact I || reflexivity).
  apply download_get_only.
Qed.

Lemma download_all_get_only token tenant_id invoices st :
  Forall get_only (events (download_all w cfg token tenant_id invoices st)).
Proof.
  unfold download_all, load_processed_invoices, load_downloaded_attachments. cbv zeta.
  events_of ltac:(exact I || reflexivity).
  all: try (apply for_fold_events; intros; apply invoice_step_get_only).
Qed.

End GetOnly.

(** ** The token exchange *)

Section Token.

Context (w : World) (cfg : Config).

Lemma get_token_requests st :
  requests_of (events (get_token w cfg st)) = [token_request cfg].
Proof.
  unfold get_token, requests_post, send, bind. cbv zeta.
  fold (token_request cfg).
  destruct (server w (token_request cfg)) as [e|resp]; cbn [outcome events final].
  - reflexivity.
  - destruct (status_code resp =? 200)%Z; cbn [outcome events final say bind print emit logger].
    + unfold response_json. destruct (json resp) as [[l|d]|]; cbn; try reflexivity.
      destruct (access_token d); reflexivity.
    + reflexivity.
Qed.

Lemma main_requests fuel st :
  exists tail,
    requests_of (events (main w cfg fuel st)) = token_request cfg :: tail
    /\ Forall (fun q => meth q = GET) tail.
Proof.
  unfold main.
  destruct (try_except_events_split
    (print "Fetching access token from Xero..." ;;;
     logger_info w cfg "Starting Xero invoice attachment downloader..." ;;;
     token <- get_token w cfg ;;
     tenant_id <- get_tenant_id w cfg token ;;
     contact_id <- get_contact_id w cfg token tenant_id (SUPPLIER_NAME cfg) ;;
     invoices <- get_invoices_for_contact w cfg fuel token tenant_id contact_id ;;
     download_all w cfg token tenant_id invoices)
    (fun err => say w cfg ERROR ("Error occurred: " +:+ str_exn w err) ;;; sys_exit 1)
    st) as (rest & -> & Hrest).
  assert (Hh : requests_of rest = []).
  { destruct Hrest as [->|(e & st' & ->)]; reflexivity. }
  rewrite requests_of_app, Hh, app_nil_r. clear Hh Hrest rest.
  (* the two messages before the exchange *)
  erewrite (bind_run (print _) _ st tt st) by reflexivity.
  cbn [events].
  erewrite (bind_run (logger_info w cfg _) _ st tt) by reflexivity.
  cbn [events].
  set (st2 := mkState _ _ _ _).
  destruct (bind_events_split (get_token w cfg)
    (fun token =>
       tenant_id <- get_tenant_id w cfg token ;;
       contact_id <- get_contact_id w cfg token tenant_id (SUPPLIER_NAME cfg) ;;
       invoices <- get_invoices_for_contact w cfg fuel token tenant_id contact_id ;;
       download_all w cfg token tenant_id invoices) st2) as (rest & Hev & Hrest).
  rewrite Hev, !requests_of_app, get_token_requests.
  exists (requests_of rest). split; [reflexivity|].
  apply requests_of_get_only.
  destruct Hrest as [->|(token & st' & ->)]; [constructor|].
  apply bind_events; [apply get_tenant_id_get_only|intros tenant_id st3].
  apply bind_events; [apply get_contact_id_get_only|intros contact_id st4].
  apply bind_events; [apply get_invoices_get_only|intros invoices st5].
  apply download_all_get_only.
Qed.

Lemma get_token_fails resp st :
  server w (token_request cfg) = inr resp ->
  status_code resp <> 200%Z ->
  outcome (get_token w cfg st) = Exited 1
  /\ events (get_token w cfg st) =
       [ERequest (token_request cfg);
        EPrint (failure "Failed to fetch token: " resp);
        ELog ERROR (failure "Failed to fetch token: " resp)].
Proof.
  intros Hsrv Hne.
  unfold get_token, requests_post. cbv zeta. fold (token_request cfg).
  rewrite (bind_run _ _ _ _ _ _ (send_run w _ resp st Hsrv)).
  cbn [outcome final events].
  destruct (Z.eqb_spec (status_code resp) 200) as [E|_]; [contradiction|].
  split; reflexivity.
Qed.

(** C8.  [get_token] issues one request: a POST to the token endpoint
    with HTTP Basic authentication by [CLIENT_ID] and [CLIENT_SECRET] and
    the grant type [client_credentials].  On status 200 it returns the
    [access_token] of the body, on any other status it prints and logs
    the failure and exits with status 1.  In a run of [main] this request
    is the first one and every other request is a GET: the token is
    acquired once and not again. *)
Theorem get_token_exchange (resp : Response) (st : State) :
  server w (token_request cfg) = inr resp ->
  let r := get_token w cfg st in
  requests_of (events r) = [token_request cfg]
  /\ meth (token_request cfg) = POST
  /\ url (token_request cfg) = XERO_TOKEN_URL
  /\ auth (token_request cfg) = Some (CLIENT_ID cfg, CLIENT_SECRET cfg)
  /\ In ("grant_type", "client_credentials") (data (token_request cfg))
  /\ (status_code resp = 200%Z ->
      forall d t, json resp = Some (JDict d) -> access_token d = Some t ->
                  outcome r = Returned t)
  /\ (status_code resp <> 200%Z ->
      outcome r = Exited 1
      /\ events r =
           [ERequest (token_request cfg);
            EPrint (failure "Failed to fetch token: " resp);
            ELog ERROR (failure "Failed to fetch token: " resp)])
  /\ (forall fuel st', exists tail,
        requests_of (events (main w cfg fuel st')) = token_request cfg :: tail
        /\ Forall (fun q => meth q = GET) tail).
Proof.
  intros Hsrv r.
  split; [apply get_token_requests|].
  do 4 (split; [first [reflexivity | left; reflexivity]|]).
  split; [|split].
  - intros H200 d t Hj Ht. subst r.
    unfold get_token, requests_post. cbv zeta. fold (token_request cfg).
    rewrite (bind_run _ _ _ _ _ _ (send_run w _ resp st Hsrv)).
    cbn [outcome final events].
    rewrite H200. cbn [Z.eqb Pos.eqb].
    unfold bind, say, print, emit, logger, response_json. cbn [outcome final events].
    rewrite Hj. cbn [outcome final events ret]. rewrite Ht. reflexivity.
  - intros Hne. now apply get_token_fails.
  - apply main_requests.
Qed.

End Token.

(** The exchange against a server that hands out the token [tok]. *)
Lemma get_token_exchange_witness :
  server Demo.w_ok (token_request Demo.cfg)
  = inr (Demo.ok (JDict (mkDict (Some "tok") None None None)))
  /\ outcome (get_token Demo.w_ok Demo.cfg Demo.st0) = Returned "tok".
Proof.
  split.
  - reflexivity.
  - exact (proj1 (proj2 (proj2 (proj2 (proj2 (proj2
      (get_token_exchange Demo.w_ok Demo.cfg
         (Demo.ok (JDict (mkDict (Some "tok") None None None))) Demo.st0 eq_refl))))))
      eq_refl (mkDict (Some "tok") None None None) "tok" eq_refl eq_refl).
Defined.

(** ** Resolving the contact *)

Section ContactLookup.

Context (w : World) (cfg : Config).

(** C7.  [get_contact_id] sends one request, to the contacts endpoint,
    with the filter [Name=="<name>"] ([main] passes [SUPPLIER_NAME]).
    On status 200 it returns the [ContactID] of the first contact of the
    list, and exits with status 1 when the list is empty. *)
Theorem get_contact_id_first (token tenant_id contact_name : string)
    (resp : Response) (d : Dict) (st : State) :
  server w (contact_request token tenant_id contact_name) = inr resp ->
  status_code resp = 200%Z ->
  json resp = Some (JDict d) ->
  let r := get_contact_id w cfg token tenant_id contact_name st in
  requests_of (events r) = [contact_request token tenant_id contact_name]
  /\ url (contact_request token tenant_id contact_name) = XERO_CONTACTS_URL
  /\ params (contact_request token tenant_id contact_name)
     = Some [("where", PStr ("Name==" +:+ DQ +:+ contact_name +:+ DQ))]
  /\ (forall c rest id,
        Contacts d = Some (c :: rest) -> ContactID c = Some id ->
        outcome r = Returned id)
  /\ (default [] (Contacts d) = [] -> outcome r = Exited 1).
Proof.
  intros Hsrv H200 Hj r. subst r.
  unfold get_contact_id, get_xero_api, requests_get. cbv zeta.
  fold (api_headers token tenant_id).
  fold (contact_request token tenant_id contact_name).
  rewrite (bind_run _ _ _ _ _ _ (send_run w _ resp st Hsrv)).
  cbn [outcome final events]. rewrite H200. cbn [Z.eqb Pos.eqb].
  unfold response_json. rewrite Hj.
  cbn [bind ret dict_get outcome final events app].
  destruct (Contacts d) as [[|c rest]|] eqn:Hc; cbn [default id].
  - repeat split; intros; try discriminate; reflexivity.
  - destruct (ContactID c) as [cid|] eqn:Hid.
    + repeat split; try (intros; discriminate).
      intros c' rest' id' [= <- <-] Hid'. rewrite Hid in Hid'.
      injection Hid' as <-. reflexivity.
    + repeat split; try (intros; discriminate).
      intros c' rest' id' [= <- <-] Hid'. congruence.
  - repeat split; intros; try discriminate; reflexivity.
Qed.

End ContactLookup.

(** The lookup against a server that knows one contact, [c1]. *)
Lemma get_contact_id_first_witness :
  server Demo.w_ok (contact_request "tok" "tenant" "Acme Ltd")
  = inr (Demo.ok (JDict (mkDict None (Some [mkContact (Some "c1")]) None None)))
  /\ outcome (get_contact_id Demo.w_ok Demo.cfg "tok" "tenant" "Acme Ltd" Demo.st0)
     = Returned "c1".
Proof.
  split.
  - reflexivity.
  - exact (proj1 (proj2 (proj2 (proj2
      (get_contact_id_first Demo.w_ok Demo.cfg "tok" "tenant" "Acme Ltd"
         (Demo.ok (JDict (mkDict None (Some [mkContact (Some "c1")]) None None)))
         (mkDict None (Some [mkContact (Some "c1")]) None None)
         Demo.st0 eq_refl eq_refl eq_refl))))
      (mkContact (Some "c1")) [] "c1" eq_refl eq_refl).
Defined.

(** ** What a failed request does *)

Section Failures.

Context (w : World) (cfg : Config).



Lemma fetch_pages_fails fuel token tenant_id contact_id page invoices resp st :
  server w (page_request cfg token tenant_id contact_id page) = inr resp ->
  status_code resp <> 200%Z ->
  outcome (fetch_pages w cfg (S fuel) token tenant_id contact_id page invoices st) = Exited 1
  /\ events (fetch_pages w cfg (S fuel) token tenant_id contact_id page invoices st) =
       [ERequest (page_request cfg token tenant_id contact_id page);
        EPrint (failure "Failed to fetch invoices: " resp);
        ELog ERROR (failure "Failed to fetch invoices: " resp)].
Proof.
  intros Hsrv Hne.
  cbn [fetch_pages]. unfold get_xero_api, requests_get. cbv zeta.
  fold (api_headers token tenant_id).
  fold (page_request cfg token tenant_id contact_id page).
  rewrite (bind_run _ _ _ _ _ _ (send_run w _ resp st Hsrv)).
  cbn [outcome final events].
  destruct (Z.eqb_spec (status_code resp) 200) as [E|_]; [contradiction|].
  split; reflexivity.
Qed.




End Failures.



(** ** Enumerating the invoices *)

Example page_numbers_ex : page_numbers 1 4 = [1; 2; 3; 4]%Z.
Proof. reflexivity. Qed.

Section Pagination.

Context (w : World) (cfg : Config) (token tenant_id contact_id : string).

(** One turn of the loop on a page that has invoices. *)
Lemma fetch_pages_more fuel page acc pg st :
  page_is w cfg token tenant_id contact_id page pg ->
  pg <> [] ->
  exists st',
    outcome (fetch_pages w cfg (S fuel) token tenant_id contact_id page acc st)
    = outcome (fetch_pages w cfg fuel token tenant_id contact_id (page + 1)%Z (acc ++ pg) st')
    /\ requests_of (events (fetch_pages w cfg (S fuel) token tenant_id contact_id page acc st))
       = page_request cfg token tenant_id contact_id page
         :: requests_of (events (fetch_pages w cfg fuel token tenant_id contact_id (page + 1)%Z
                                   (acc ++ pg) st')).
Proof.
  intros (resp & d & Hsrv & H200 & Hj & Hd) Hne.
  cbn [fetch_pages]. unfold get_xero_api, requests_get. cbv zeta.
  fold (api_headers token tenant_id). fold (page_request cfg token tenant_id contact_id page).
  rewrite (bind_run _ _ _ _ _ _ (send_run w _ resp st Hsrv)).
  cbn [outcome final events]. rewrite H200. cbn [Z.eqb Pos.eqb].
  unfold response_json. rewrite Hj.
  cbn [bind ret dict_get outcome final events app]. rewrite Hd.
  destruct pg as [|i pg]; [contradiction|].
  rewrite (bind_run _ _ _ _ _ _ (say_run w cfg _ _ st)).
  cbn [outcome final events].
  erewrite (bind_run (sleep 1) _ _ tt) by reflexivity.
  cbn [outcome final events].
  eexists. split; reflexivity.
Qed.

(** The turn of the loop on an empty page. *)
Lemma fetch_pages_last fuel page acc st :
  page_is w cfg token tenant_id contact_id page [] ->
  outcome (fetch_pages w cfg (S fuel) token tenant_id contact_id page acc st) = Returned acc
  /\ requests_of (events (fetch_pages w cfg (S fuel) token tenant_id contact_id page acc st))
     = [page_request cfg token tenant_id contact_id page].
Proof.
  intros (resp & d & Hsrv & H200 & Hj & Hd).
  cbn [fetch_pages]. unfold get_xero_api, requests_get. cbv zeta.
  fold (api_headers token tenant_id). fold (page_request cfg token tenant_id contact_id page).
  rewrite (bind_run _ _ _ _ _ _ (send_run w _ resp st Hsrv)).
  cbn [outcome final events]. rewrite H200. cbn [Z.eqb Pos.eqb].
  unfold response_json. rewrite Hj.
  cbn [bind ret dict_get outcome final events app]. rewrite Hd.
  split; reflexivity.
Qed.

Lemma fetch_pages_run (pages : list (list Invoice)) :
  forall first acc fuel st,
    Forall (fun pg => pg <> []) pages ->
    (forall i pg, pages !! i = Some pg ->
       page_is w cfg token tenant_id contact_id (first + Z.of_nat i)%Z pg) ->
    page_is w cfg token tenant_id contact_id (first + Z.of_nat (length pages))%Z [] ->
    length pages < fuel ->
    outcome (fetch_pages w cfg fuel token tenant_id contact_id first acc st)
    = Returned (acc ++ concat pages)
    /\ requests_of (events (fetch_pages w cfg fuel token tenant_id contact_id first acc st))
       = map (page_request cfg token tenant_id contact_id) (page_numbers first (S (length pages))).
Proof.
  induction pages as [|pg pages IH]; intros first acc fuel st Hne Hpages Hlast Hfuel.
  - destruct fuel as [|fuel]; [cbn in Hfuel; lia|].
    cbn [length Z.of_nat] in Hlast. rewrite Z.add_0_r in Hlast.
    destruct (fetch_pages_last fuel first acc st Hlast) as [Ho Hr].
    rewrite Ho, Hr. cbn. rewrite app_nil_r. auto.
  - destruct fuel as [|fuel]; [cbn in Hfuel; lia|].
    inversion Hne as [|? ? Hpg Hrest]; subst.
    assert (H0 : page_is w cfg token tenant_id contact_id first pg).
    { specialize (Hpages 0 pg eq_refl). cbn in Hpages.
      rewrite Z.add_0_r in Hpages. exact Hpages. }
    destruct (fetch_pages_more fuel first acc pg st H0 Hpg) as (st' & Ho & Hr).
    rewrite Ho, Hr.
    destruct (IH (first + 1)%Z (acc ++ pg) fuel st') as [Ho' Hr'].
    + exact Hrest.
    + intros i pg' Hi. specialize (Hpages (S i) pg' Hi).
      replace (first + 1 + Z.of_nat i)%Z with (first + Z.of_nat (S i))%Z by lia.
      exact Hpages.
    + replace (first + 1 + Z.of_nat (length pages))%Z
        with (first + Z.of_nat (length (pg :: pages)))%Z by (cbn [length]; lia).
      exact Hlast.
    + cbn [length] in Hfuel. lia.
    + rewrite Ho', Hr'. cbn [concat]. rewrite app_assoc. split; reflexivity.
Qed.

(** The loop ends, one way or another, once it reaches a page at which
    it stops. *)
Lemma fetch_pages_terminates (n : nat) :
  forall fuel first acc st,
    page_stops w cfg token tenant_id contact_id (first + Z.of_nat n)%Z ->
    n < fuel ->
    outcome (fetch_pages w cfg fuel token tenant_id contact_id first acc st) <> OutOfFuel.
Proof.
  induction n as [|n IH]; intros fuel first acc st Hstop Hfuel;
    (destruct fuel as [|fuel]; [lia|]);
    cbn [fetch_pages]; unfold get_xero_api, requests_get; cbv zeta;
    fold (api_headers token tenant_id);
    fold (page_request cfg token tenant_id contact_id first);
    (destruct (server w (page_request cfg token tenant_id contact_id first))
       as [e|resp] eqn:Hsrv;
     [unfold bind, send; rewrite Hsrv; cbn; discriminate|]);
    rewrite (bind_run _ _ _ _ _ _ (send_run w _ resp st Hsrv));
    cbn [outcome final events];
    (destruct (Z.eqb_spec (status_code resp) 200) as [H200|_];
     [|cbn; discriminate]);
    unfold response_json;
    (destruct (json resp) as [[l|d]|] eqn:Hj; [cbn; discriminate| |cbn; discriminate]);
    cbn [bind ret dict_get outcome final events app];
    (destruct (default [] (Invoices d)) as [|i pg] eqn:Hd; [cbn; discriminate|]).
  - rewrite Z.add_0_r in Hstop.
    rewrite (Hstop resp d Hsrv H200 Hj) in Hd. discriminate Hd.
  - rewrite (bind_run _ _ _ _ _ _ (say_run w cfg _ _ st)).
    cbn [outcome final events].
    erewrite (bind_run (sleep 1) _ _ tt) by reflexivity.
    cbn [outcome final events].
    apply IH; [|lia].
    replace (first + 1 + Z.of_nat n)%Z with (first + Z.of_nat (S n))%Z by lia.
    exact Hstop.
Qed.

Lemma get_invoices_terminates (n fuel : nat) (st : State) :
  page_stops w cfg token tenant_id contact_id (1 + Z.of_nat n)%Z ->
  n < fuel ->
  outcome (get_invoices_for_contact w cfg fuel token tenant_id contact_id st)
  <> OutOfFuel.
Proof.
  intros Hstop Hfuel.
  pose proof (fetch_pages_terminates n fuel 1%Z [] st Hstop Hfuel) as H.
  unfold get_invoices_for_contact, bind.
  destruct (outcome (fetch_pages w cfg fuel token tenant_id contact_id 1 [] st));
    cbn; congruence.
Qed.

(** C5.  When the pages 1, ..., n of the server have invoices and page
    n + 1 is empty, [get_invoices_for_contact] (with room for more than n
    turns of its loop) requests the pages 1, 2, ..., n + 1 in this order,
    each once, and returns the invoices of the pages 1, ..., n in the
    order of arrival.  Whatever the other pages are, the loop ends once
    there is a page at which it stops. *)
Theorem pagination (pages : list (list Invoice)) (fuel : nat) (st : State) :
  Forall (fun pg => pg <> []) pages ->
  (forall i pg, pages !! i = Some pg ->
     page_is w cfg token tenant_id contact_id (1 + Z.of_nat i)%Z pg) ->
  page_is w cfg token tenant_id contact_id (1 + Z.of_nat (length pages))%Z [] ->
  length pages < fuel ->
  let r := get_invoices_for_contact w cfg fuel token tenant_id contact_id st in
  outcome r = Returned (concat pages)
  /\ requests_of (events r)
     = map (page_request cfg token tenant_id contact_id)
         (page_numbers 1 (S (length pages)))
  /\ (forall n fuel' st',
        page_stops w cfg token tenant_id contact_id (1 + Z.of_nat n)%Z ->
        n < fuel' ->
        outcome (get_invoices_for_contact w cfg fuel' token tenant_id contact_id st')
        <> OutOfFuel).
Proof.
  intros Hne Hpages Hlast Hfuel r. subst r.
  enough (H : outcome (get_invoices_for_contact w cfg fuel token tenant_id contact_id st)
               = Returned (concat pages)
               /\ requests_of
                    (events (get_invoices_for_contact w cfg fuel token tenant_id
                               contact_id st))
                  = map (page_request cfg token tenant_id contact_id)
                      (page_numbers 1 (S (length pages)))).
  { destruct H as [H1 H2]. split; [exact H1|]. split; [exact H2|].
    intros n fuel' st' Hstop Hn. exact (get_invoices_terminates n fuel' st' Hstop Hn). }
  destruct (fetch_pages_run pages 1%Z [] fuel st Hne Hpages Hlast Hfuel) as [Ho Hr].
  unfold get_invoices_for_contact.
  destruct (fetch_pages w cfg fuel token tenant_id contact_id 1%Z [] st) as [o st' evs] eqn:E.
  cbn [outcome events] in Ho, Hr. subst o.
  rewrite (bind_run _ _ _ _ _ _ E). cbn [outcome events final].
  rewrite (bind_run _ _ _ _ _ _ (say_run w cfg _ _ st')).
  cbn [outcome events final ret app].
  split; [reflexivity|].
  rewrite requests_of_app, Hr. cbn. rewrite app_nil_r. reflexivity.
Qed.

(** C6.  Every request [get_invoices_for_contact] sends goes to the
    invoices endpoint with the [where] parameter
    [Contact.ContactID==Guid("<contact_id>") AND Date>=DateTime(y,mm,dd)],
    where y is the year of the start date and mm and dd are its month and
    day in two digits: a lower bound on the date and no upper one. *)
Theorem invoice_requests_carry_filter (fuel : nat) (st : State) :
  Forall (carries_filter cfg contact_id)
    (events (get_invoices_for_contact w cfg fuel token tenant_id contact_id st))
  /\ where_clause contact_id (start_year cfg) (start_month cfg) (start_day cfg)
     = "Contact.ContactID==Guid(" +:+ DQ +:+ contact_id +:+ DQ
       +:+ ") AND Date>=DateTime(" +:+ Py.str_int (Z.of_nat (start_year cfg))
       +:+ "," +:+ Py.fmt_02d (start_month cfg)
       +:+ "," +:+ Py.fmt_02d (start_day cfg) +:+ ")"
  /\ (forall n, n < 100 ->
        String.length (Py.fmt_02d n) = 2
        /\ Py.fmt_02d n = if n <? 10 then "0" +:+ Py.str_int (Z.of_nat n)
                          else Py.str_int (Z.of_nat n)).
Proof.
  split; [|split; [reflexivity|]].
  - unfold get_invoices_for_contact.
    apply bind_events.
    + generalize 1%Z, (@nil Invoice), st.
      induction fuel as [|n IH]; intros page acc st0; cbn [fetch_pages].
      * constructor.
      * unfold get_xero_api, requests_get. cbv zeta.
        events_of ltac:(first [exact I | split; [reflexivity|eexists; reflexivity]]).
        apply IH.
    + intros. events_of ltac:(exact I).
  - intros n Hn.
    do 100 (destruct n as [|n]; [split; reflexivity|]). lia.
Qed.

End Pagination.

(** Two pages of invoices and an empty third one. *)
Lemma pagination_witness :
  2 < 5
  /\ outcome (get_invoices_for_contact Demo.w_two_pages Demo.cfg 5 "tok" "tenant" "c1"
                Demo.st0)
     = Returned [Demo.inv1; Demo.inv2; Demo.inv_up].
Proof.
  split; [lia|].
  refine (proj1 (pagination Demo.w_two_pages Demo.cfg "tok" "tenant" "c1"
                   [[Demo.inv1]; [Demo.inv2; Demo.inv_up]] 5 Demo.st0 _ _ _ _)).
  - repeat constructor; discriminate.
  - intros [|[|i]] pg; cbn; intros [= <-];
      eexists _, _; repeat split; reflexivity.
  - eexists _, _; repeat split; reflexivity.
  - cbn; lia.
Defined.

Example where_clause_ex :
  where_clause "abc" 2019 7 5
  = "Contact.ContactID==Guid(" +:+ DQ +:+ "abc" +:+ DQ
    +:+ ") AND Date>=DateTime(2019,07,05)".
Proof. reflexivity. Qed.

(** ** The loop over the invoices *)

Section InvoiceLoop.

Context (w : World) (cfg : Config).

(** An invoice whose identifier is in the processed set is skipped: a
    print and a log record, nothing else. *)
Lemma invoice_step_skips token tenant_id ps ds inv inv_id n st :
  InvoiceID inv = Some inv_id ->
  inv_id ∈ ps ->
  outcome (invoice_step w cfg token tenant_id ps ds inv n st) = Returned n
  /\ requests_of (events (invoice_step w cfg token tenant_id ps ds inv n st)) = []
  /\ writes_of (events (invoice_step w cfg token tenant_id ps ds inv n st)) = [].
Proof.
  intros Hid Hin. unfold invoice_step. rewrite Hid. cbv zeta.
  rewrite (bool_decide_eq_true_2 _ Hin). repeat split.
Qed.

(** An invoice whose identifier is not in the processed set is worked
    on: the "Processing invoice:" record is written to the log, and then
    the list of its attachments is requested. *)
Lemma invoice_step_works token tenant_id ps ds inv inv_id n st :
  InvoiceID inv = Some inv_id ->
  inv_id ∉ ps ->
  let started := "Processing invoice: " +:+ default inv_id (InvoiceNumber inv)
                 +:+ " (ID: " +:+ inv_id +:+ ", Date: "
                 +:+ default "N/A" (DateString inv) +:+ ")" in
  exists tail,
    events (invoice_step w cfg token tenant_id ps ds inv n st) =
    EPrint started :: ELog INFO started
    :: ERequest (attachments_request token tenant_id inv_id) :: tail.
Proof.
  intros Hid Hnot started. unfold invoice_step. rewrite Hid. cbv zeta.
  rewrite (bool_decide_eq_false_2 _ Hnot).
  unfold get_xero_api, requests_get. cbv zeta.
  fold (api_headers token tenant_id).
  fold (attachments_request token tenant_id inv_id).
  rewrite (bind_run _ _ _ _ _ _ (say_run w cfg _ _ st)).
  cbn [outcome final events].
  set (st1 := final _).
  destruct (bind_events_split (send w (attachments_request token tenant_id inv_id))
    (fun response =>
       if (status_code response =? 200)%Z
       then
         j <- response_json response;;
         attachments <- dict_get Attachments j;;
         match attachments with
         | [] => say w cfg INFO ("No attachments found for invoice "
                                 +:+ default inv_id (InvoiceNumber inv))
         | _ :: _ =>
             for_each attachments
               (attachment_step w cfg token tenant_id inv_id
                  (default inv_id (InvoiceNumber inv)) ds)
         end;;;
         ret (n + 1)%Z
       else
         say w cfg ERROR
           (failure ("Failed to fetch attachments for "
                     +:+ default inv_id (InvoiceNumber inv) +:+ ": ") response);;;
         ret n) st1) as (rest & -> & _).
  assert (Hs : exists r, events (send w (attachments_request token tenant_id inv_id) st1)
                         = [ERequest (attachments_request token tenant_id inv_id)]
                         /\ r = tt).
  { exists tt. unfold send. destruct (server w _); auto. }
  destruct Hs as (_ & -> & _).
  eexists. reflexivity.
Qed.

End InvoiceLoop.

(** ** The sanitised file name *)

Lemma contains_char_cons (c d : ascii) (s : string) :
  Py.contains (String c EmptyString) (String d s)
  = Ascii.eqb c d || Py.contains (String c EmptyString) s.
Proof.
  cbn [Py.contains Py.startswith String.prefix].
  destruct (ascii_dec c d) as [->|Hne].
  - rewrite Ascii.eqb_refl. destruct s; reflexivity.
  - apply Ascii.eqb_neq in Hne. rewrite Hne. reflexivity.
Qed.

Lemma contains_char_app (c : ascii) (s t : string) :
  Py.contains (String c EmptyString) (s +:+ t)
  = Py.contains (String c EmptyString) s || Py.contains (String c EmptyString) t.
Proof.
  induction s as [|d s IH].
  - reflexivity.
  - change (String d s +:+ t) with (String d (s +:+ t)).
    rewrite !contains_char_cons, IH. apply orb_assoc.
Qed.

Lemma replace_char_removes (old c : ascii) (s : string) :
  c <> old ->
  Py.contains (String old EmptyString) (Py.replace_char old (String c EmptyString) s)
  = false.
Proof.
  intros Hne. induction s as [|d s IH].
  - reflexivity.
  - cbn [Py.replace_char]. rewrite contains_char_app, IH, orb_false_r.
    destruct (Ascii.eqb_spec d old) as [->|Hd].
    + rewrite contains_char_cons.
      destruct (Ascii.eqb_spec old c); [congruence|reflexivity].
    + rewrite contains_char_cons.
      destruct (Ascii.eqb_spec old d); [congruence|reflexivity].
Qed.

Lemma replace_char_keeps_out (old c x : ascii) (s : string) :
  x <> c ->
  Py.contains (String x EmptyString) s = false ->
  Py.contains (String x EmptyString) (Py.replace_char old (String c EmptyString) s)
  = false.
Proof.
  intros Hne. induction s as [|d s IH]; intros Hs.
  - reflexivity.
  - rewrite contains_char_cons in Hs. apply orb_false_iff in Hs as [Hd Hs].
    cbn [Py.replace_char]. rewrite contains_char_app, (IH Hs), orb_false_r.
    destruct (Ascii.eqb d old).
    + rewrite contains_char_cons.
      destruct (Ascii.eqb_spec x c); [congruence|reflexivity].
    + rewrite contains_char_cons, Hd. reflexivity.
Qed.

(** The sanitised part of the name has neither a slash nor a backslash;
    the invoice number in front of it is taken as it comes. *)
Lemma safe_name_no_separator (file_name : string) :
  Py.contains "/" (safe_name file_name) = false
  /\ Py.contains "\" (safe_name file_name) = false.
Proof.
  unfold safe_name. split.
  - apply replace_char_keeps_out; [discriminate|].
    apply replace_char_removes. discriminate.
  - apply replace_char_removes. discriminate.
Qed.

(** ** Runs that show the resumption ledger at work *)

(** C2, at a failing input.  The first run finishes the invoice [id1]:
    it downloads the attachment and leaves the "Processing invoice:"
    record of [id1] in the log, which is [app/xero_download.log].  The
    second run, started in the same place, reads
    [app/invoice_attachments/Acme_Ltd/xero_download.log], which does not
    exist, so it does not skip the invoice: it requests its attachments
    and downloads the file again. *)
Theorem second_run_repeats_finished_invoice :
  let r1 := main Demo.w_ok Demo.cfg 10 Demo.st0 in
  let r2 := main Demo.w_ok Demo.cfg 10 (next_run Demo.cfg (final r1)) in
  outcome r1 = Returned tt
  /\ writes_of (events r1) = [Demo.supplier_dir ++ ["INV-1_report.pdf"]]
  /\ (exists log, files (final r1) !! log_path Demo.cfg = Some log
        /\ elements (fold_left scan_processed (Py.file_lines log) ∅) = ["id1"]
        /\ elements (fold_left scan_downloaded (Py.file_lines log) ∅)
           = ["INV-1_report.pdf"])
  /\ files (final r1) !! (Demo.supplier_dir ++ [LOG_NAME]) = None
  /\ outcome r2 = Returned tt
  /\ In (attachments_request "tok" "tenant" "id1") (requests_of (events r2))
  /\ In (download_request "tok" "tenant" "id1" "report.pdf") (requests_of (events r2))
  /\ writes_of (events r2) = [Demo.supplier_dir ++ ["INV-1_report.pdf"]].
Proof.
  cbv zeta.
  split; [vm_compute; reflexivity|].
  split; [vm_compute; reflexivity|].
  split.
  { exists (default EmptyString
              (files (final (main Demo.w_ok Demo.cfg 10 Demo.st0)) !! log_path Demo.cfg)).
    split; [vm_compute; reflexivity|].
    split; vm_compute; reflexivity. }
  split; [vm_compute; reflexivity|].
  split; [vm_compute; reflexivity|].
  split; [vm_compute; repeat (first [left; reflexivity | right])|].
  split; [vm_compute; repeat (first [left; reflexivity | right])|].
  vm_compute; reflexivity.
Qed.

(** C9, at a failing input.  In the first run the request for the
    attachments of [id1] is answered with status 500; the run goes on and
    the log holds the "Processing invoice:" record of [id1].  The second
    run does not skip [id1]: it requests its attachments again. *)
Theorem second_run_retries_failed_invoice :
  let r1 := main Demo.w_meta_fails Demo.cfg 10 Demo.st0 in
  let r2 := main Demo.w_meta_fails Demo.cfg 10 (next_run Demo.cfg (final r1)) in
  outcome r1 = Returned tt
  /\ writes_of (events r1) = []
  /\ (exists before after,
        events r1 = before
                    ++ ELog INFO "Processing invoice: INV-1 (ID: id1, Date: 2020-01-01)"
                    :: ERequest (attachments_request "tok" "tenant" "id1") :: after)
  /\ (exists log, files (final r1) !! log_path Demo.cfg = Some log
        /\ elements (fold_left scan_processed (Py.file_lines log) ∅) = ["id1"])
  /\ files (final r1) !! (Demo.supplier_dir ++ [LOG_NAME]) = None
  /\ In (attachments_request "tok" "tenant" "id1") (requests_of (events r2))
  /\ ~ In (EPrint "Skipping invoice: INV-1 (ID: id1) - already processed") (events r2).
Proof.
  cbv zeta.
  split; [vm_compute; reflexivity|].
  split; [vm_compute; reflexivity|].
  split.
  { exists (firstn 21 (events (main Demo.w_meta_fails Demo.cfg 10 Demo.st0))),
           (skipn 23 (events (main Demo.w_meta_fails Demo.cfg 10 Demo.st0))).
    vm_compute. reflexivity. }
  split.
  { exists (default EmptyString
              (files (final (main Demo.w_meta_fails Demo.cfg 10 Demo.st0))
                 !! log_path Demo.cfg)).
    split; vm_compute; reflexivity. }
  split; [vm_compute; reflexivity|].
  split; [vm_compute; repeat (first [left; reflexivity | right])|].
  vm_compute. intros H.
  repeat (destruct H as [H|H]; [discriminate H|]). exact H.
Qed.

(** C10, at a failing input.  The invoice number [../x] goes into the
    name as it is: the file is written outside the supplier folder.  With
    the invoice number [INV/2024/001] the name points into a directory
    that does not exist: nothing is written and the run exits with
    status 1. *)
Theorem invoice_number_leaves_folder :
  let r := main Demo.w_up Demo.cfg 10 Demo.st0 in
  let r' := main Demo.w_slash Demo.cfg 10 Demo.st0 in
  unique_name "../x" "report.pdf" = "../x_report.pdf"
  /\ Py.contains "/" (unique_name "../x" "report.pdf") = true
  /\ cwd (final r) = Demo.supplier_dir
  /\ writes_of (events r) = [["app"; "invoice_attachments"; "x_report.pdf"]]
  /\ files (final r) !! (Demo.supplier_dir ++ ["x_report.pdf"]) = None
  /\ unique_name "INV/2024/001" "report.pdf" = "INV/2024/001_report.pdf"
  /\ outcome r' = Exited 1
  /\ writes_of (events r') = [].
Proof.
  cbv zeta.
  do 7 (split; [vm_compute; reflexivity|]).
  vm_compute; reflexivity.
Qed.

(** ** Strings: occurrences, [partition] and [split] *)

Section StringFacts.

(** Appending computes on its first argument. *)
Local Arguments String.append !_ _ : simpl nomatch.

Lemma sapp_cons (c : ascii) (s t : string) :
  String c s +:+ t = String c (s +:+ t).
Proof. reflexivity. Qed.

Lemma sapp_assoc (a b c : string) : (a +:+ b) +:+ c = a +:+ b +:+ c.
Proof.
  induction a as [|x a IH]; [reflexivity|]. now rewrite !sapp_cons, IH.
Qed.

Lemma slength_app (a b : string) :
  String.length (a +:+ b) = String.length a + String.length b.
Proof.
  induction a as [|x a IH]; [reflexivity|].
  rewrite sapp_cons. cbn [String.length]. now rewrite IH.
Qed.

Lemma startswith_app (pre b : string) : Py.startswith pre (pre +:+ b) = true.
Proof.
  unfold Py.startswith. induction pre as [|c pre IH]; cbn.
  - destruct b; reflexivity.
  - destruct (ascii_dec c c); [exact IH|congruence].
Qed.

Lemma drop_app (pre b : string) : Py.drop (String.length pre) (pre +:+ b) = b.
Proof.
  induction pre as [|c pre IH]; cbn; [|exact IH].
  destruct b; reflexivity.
Qed.

Lemma startswith_inv (pre s : string) :
  Py.startswith pre s = true -> s = pre +:+ Py.drop (String.length pre) s.
Proof.
  unfold Py.startswith. revert s. induction pre as [|c pre IH]; intros s H.
  - cbn. destruct s; reflexivity.
  - destruct s as [|d s]; cbn in H; [discriminate|].
    destruct (ascii_dec c d) as [->|]; [|discriminate].
    cbn. f_equal. apply IH, H.
Qed.

Lemma startswith_iff (pre s : string) :
  Py.startswith pre s = true <-> exists b, s = pre +:+ b.
Proof.
  split.
  - intros H. eexists. apply startswith_inv, H.
  - intros [b ->]. apply startswith_app.
Qed.

Lemma contains_occurs (sep s : string) :
  Py.contains sep s = true <-> occurs sep s.
Proof.
  induction s as [|c s IH]; cbn [Py.contains].
  - rewrite orb_false_r, startswith_iff. split.
    + intros [b H]. exists EmptyString, b. exact H.
    + intros (a & b & H). destruct a; [eauto|discriminate].
  - rewrite orb_true_iff, startswith_iff, IH. split.
    + intros [[b H]|(a & b & H)].
      * exists EmptyString, b. exact H.
      * exists (String c a), b. cbn. now rewrite H.
    + intros (a & b & H). destruct a as [|x a].
      * left. exists b. exact H.
      * right. injection H as -> H. exists a, b. exact H.
Qed.

Lemma partition_first_cut (sep s a b : string) :
  Py.partition sep s = Some (a, b) <-> first_cut sep s a b.
Proof.
  revert a b. induction s as [|c s IH]; intros a b; cbn [Py.partition].
  - destruct (Py.startswith sep EmptyString) eqn:E.
    + apply startswith_inv in E. split.
      * intros [= <- <-]. split; [exact E|]. intros; cbn; lia.
      * intros [H Hmin]. destruct a; [|discriminate].
        cbn in H. rewrite H, drop_app. reflexivity.
    + split; [discriminate|]. intros [H _].
      destruct a; [|discriminate].
      assert (Py.startswith sep EmptyString = true) by (apply startswith_iff; eauto).
      congruence.
  - destruct (Py.startswith sep (String c s)) eqn:E.
    + pose proof (startswith_inv _ _ E) as E'. split.
      * intros [= <- <-]. split; [exact E'|]. intros; cbn; lia.
      * intros [H Hmin]. specialize (Hmin EmptyString _ E'). cbn in Hmin.
        destruct a; [|cbn in Hmin; lia].
        cbn in H. rewrite H, drop_app. reflexivity.
    + split.
      * destruct (Py.partition sep s) as [[a0 b0]|] eqn:P; [|discriminate].
        intros [= <- <-]. destruct (proj1 (IH a0 b0) eq_refl) as [H Hmin]. split.
        -- cbn. now rewrite <- H.
        -- intros a' b' H'. destruct a' as [|x a'].
           ++ assert (Py.startswith sep (String c s) = true)
                by (apply startswith_iff; eauto).
              congruence.
           ++ injection H' as _ H'. cbn. apply le_n_S, (Hmin a' b' H').
      * intros [H Hmin]. destruct a as [|x a].
        -- assert (Py.startswith sep (String c s) = true)
             by (apply startswith_iff; eauto).
           congruence.
        -- injection H as <- H.
           assert (P : Py.partition sep s = Some (a, b)).
           { apply IH. split; [exact H|]. intros a' b' H'.
             specialize (Hmin (String c a') b'). cbn in Hmin.
             rewrite <- H' in Hmin. specialize (Hmin eq_refl). lia. }
           rewrite P. reflexivity.
Qed.

Lemma partition_none (sep s : string) :
  Py.partition sep s = None <-> ~ occurs sep s.
Proof.
  split.
  - intros H (a & b & Hab). revert a H Hab.
    induction s as [|c s IH]; intros a H Hab; cbn [Py.partition] in H.
    + destruct (Py.startswith sep EmptyString) eqn:E; [discriminate|].
      destruct a; [|discriminate].
      assert (Py.startswith sep EmptyString = true) by (apply startswith_iff; eauto).
      congruence.
    + destruct (Py.startswith sep (String c s)) eqn:E; [discriminate|].
      destruct a as [|x a].
      * assert (Py.startswith sep (String c s) = true)
          by (apply startswith_iff; eauto).
        congruence.
      * injection Hab as _ Hab.
        destruct (Py.partition sep s) as [[a0 b0]|] eqn:P; [discriminate|].
        exact (IH a eq_refl Hab).
  - intros H. destruct (Py.partition sep s) as [[a b]|] eqn:P; [|reflexivity].
    destruct H. apply partition_first_cut in P as [P _]. exists a, b. exact P.
Qed.

Lemma partition_shorter (sep s a b : string) :
  sep <> EmptyString ->
  Py.partition sep s = Some (a, b) -> String.length b < String.length s.
Proof.
  intros Hsep P. apply partition_first_cut in P as [-> _].
  rewrite !slength_app. destruct sep; [congruence|]. cbn. lia.
Qed.

Lemma split_fuel_enough (sep : string) :
  sep <> EmptyString ->
  forall n m s,
    String.length s < n -> String.length s < m ->
    Py.split_fuel n sep s = Py.split_fuel m sep s.
Proof.
  intros Hsep. induction n as [|n IH]; intros m s Hn Hm; [lia|].
  destruct m as [|m]; [lia|]. cbn [Py.split_fuel].
  destruct (Py.partition sep s) as [[a b]|] eqn:P; [|reflexivity].
  pose proof (partition_shorter _ _ _ _ Hsep P).
  f_equal. apply IH; lia.
Qed.

(** [split] by its equation. *)
Lemma split_eq (sep s : string) :
  sep <> EmptyString ->
  Py.split sep s =
  match Py.partition sep s with
  | None => [s]
  | Some (a, b) => a :: Py.split sep b
  end.
Proof.
  intros Hsep. unfold Py.split.
  change (Py.split_fuel (S (String.length s)) sep s)
    with (match Py.partition sep s with
          | None => [s]
          | Some (a, b) => a :: Py.split_fuel (String.length s) sep b
          end).
  destruct (Py.partition sep s) as [[a b]|] eqn:P; [|reflexivity].
  pose proof (partition_shorter _ _ _ _ Hsep P).
  f_equal. apply split_fuel_enough; [exact Hsep| |]; lia.
Qed.

(** The first piece of a split is the text up to the first separator. *)
Lemma split_head_upto (sep s t : string) :
  sep <> EmptyString ->
  Py.split sep s !! 0 = Some t <-> upto sep s t.
Proof.
  intros Hsep. rewrite (split_eq _ _ Hsep). unfold upto.
  destruct (Py.partition sep s) as [[a b]|] eqn:P; cbn.
  - split.
    + intros [= <-]. right. exists b. apply partition_first_cut, P.
    + intros [[Hno _]|[b' Hcut]].
      * apply partition_none in Hno. congruence.
      * apply partition_first_cut in Hcut. congruence.
  - split.
    + intros [= <-]. left. split; [apply partition_none, P|reflexivity].
    + intros [[_ ->]|[b' Hcut]]; [reflexivity|].
      apply partition_first_cut in Hcut. congruence.
Qed.

(** The second piece is the text between the first separator and the
    next one. *)
Lemma split_second (sep s t : string) :
  sep <> EmptyString ->
  Py.split sep s !! 1 = Some t <->
  exists a b, first_cut sep s a b /\ upto sep b t.
Proof.
  intros Hsep. rewrite (split_eq _ _ Hsep).
  destruct (Py.partition sep s) as [[a b]|] eqn:P; cbn.
  - change (Py.split sep b !! 0 = Some t <->
            exists a0 b0, first_cut sep s a0 b0 /\ upto sep b0 t).
    rewrite (split_head_upto _ _ _ Hsep). split.
    + intros H. exists a, b. split; [apply partition_first_cut, P|exact H].
    + intros (a0 & b0 & Hcut & H). apply partition_first_cut in Hcut.
      rewrite P in Hcut. injection Hcut as <- <-. exact H.
  - split; [discriminate|].
    intros (a0 & b0 & Hcut & _). apply partition_first_cut in Hcut. congruence.
Qed.

End StringFacts.

(** ** The log scanners *)

Lemma split_head_some (sep s : string) :
  sep <> EmptyString -> exists u, Py.split sep s !! 0 = Some u.
Proof.
  intros Hsep. rewrite (split_eq _ _ Hsep).
  destruct (Py.partition sep s) as [[a b]|]; cbn; eauto.
Qed.

Lemma first_cut_unique (sep s a b a' b' : string) :
  first_cut sep s a b -> first_cut sep s a' b' -> a = a' /\ b = b'.
Proof.
  intros H H'. apply partition_first_cut in H, H'.
  rewrite H in H'. injection H' as <- <-. auto.
Qed.

Lemma upto_unique (sep s t t' : string) :
  sep <> EmptyString -> upto sep s t -> upto sep s t' -> t = t'.
Proof.
  intros Hsep H H'. apply (split_head_upto _ _ _ Hsep) in H, H'.
  rewrite H in H'. injection H' as <-. reflexivity.
Qed.

Lemma scan_processed_spec (processed : gset string) (line x : string) :
  x ∈ scan_processed processed line <-> x ∈ processed \/ processed_entry line x.
Proof.
  unfold scan_processed, processed_entry.
  destruct (Py.contains "Processing invoice:" line) eqn:C.
  - apply contains_occurs in C.
    destruct (Py.split "ID: " line !! 1) as [part|] eqn:E.
    + apply split_second in E as (a & b & Hcut & Hup); [|discriminate].
      destruct (split_head_some "," part) as [u Hu]; [discriminate|].
      rewrite Hu. cbn [default]. rewrite elem_of_union, elem_of_singleton.
      apply split_head_upto in Hu; [|discriminate].
      split.
      * intros [->|H]; [right|left; exact H].
        split; [exact C|]. exists a, b, part, u. auto.
      * intros [H|(_ & a' & b' & t' & u' & Hcut' & Hup' & Hu' & ->)]; [right; exact H|].
        left. destruct (first_cut_unique _ _ _ _ _ _ Hcut Hcut') as [<- <-].
        assert (part = t') as <- by (eapply upto_unique; eauto; discriminate).
        assert (u = u') as <- by (eapply upto_unique; eauto; discriminate).
        reflexivity.
    + split; [auto|]. intros [H|(_ & a & b & t & u & Hcut & Hup & _)]; [exact H|].
      assert (Py.split "ID: " line !! 1 = Some t)
        by (apply split_second; [discriminate|eauto]).
      congruence.
  - split; [auto|]. intros [H|[Hocc _]]; [exact H|].
    apply contains_occurs in Hocc. congruence.
Qed.

Lemma occurs_longer (m e s : string) : occurs (m +:+ e) s -> occurs m s.
Proof.
  intros (a & b & ->). exists a, (e +:+ b). now rewrite sapp_assoc.
Qed.

Lemma scan_downloaded_spec (downloaded : gset string) (line x : string) :
  x ∈ scan_downloaded downloaded line <-> x ∈ downloaded \/ downloaded_entry line x.
Proof.
  unfold scan_downloaded, downloaded_entry.
  destruct (Py.split "Downloaded attachment: " line !! 1) as [part|] eqn:E.
  - apply split_second in E as (a & b & Hcut & Hup); [|discriminate].
    assert (C : Py.contains "Downloaded attachment:" line = true).
    { apply contains_occurs. apply (occurs_longer _ " ").
      destruct Hcut as [-> _]. exists a, b. reflexivity. }
    rewrite C, elem_of_union, elem_of_singleton. split.
    + intros [->|H]; [right|left; exact H]. exists a, b, part. auto.
    + intros [H|(a' & b' & t' & Hcut' & Hup' & ->)]; [right; exact H|].
      left. destruct (first_cut_unique _ _ _ _ _ _ Hcut Hcut') as [<- <-].
      assert (part = t') as <- by (eapply upto_unique; eauto; discriminate).
      reflexivity.
  - assert (Hno : forall y, ~ downloaded_entry line y).
    { intros y (a & b & t & Hcut & Hup & _).
      assert (Py.split "Downloaded attachment: " line !! 1 = Some t)
        by (apply split_second; [discriminate|eauto]).
      congruence. }
    destruct (Py.contains "Downloaded attachment:" line);
      (split; [auto|]; intros [H|H]; [exact H|destruct (Hno _ H)]).
Qed.

Lemma fold_scan_spec (scan : gset string -> string -> gset string)
    (entry : string -> string -> Prop) :
  (forall acc line x, x ∈ scan acc line <-> x ∈ acc \/ entry line x) ->
  forall lines acc x,
    x ∈ fold_left scan lines acc <->
    x ∈ acc \/ exists line, In line lines /\ entry line x.
Proof.
  intros Hscan. induction lines as [|line lines IH]; intros acc x; cbn [fold_left].
  - split; [auto|]. intros [H|(line & [] & _)]. exact H.
  - rewrite IH, Hscan. split.
    + intros [[H|H]|(l & Hl & H)]; [auto|right|right].
      * exists line. split; [left; reflexivity|exact H].
      * exists l. split; [right; exact Hl|exact H].
    + intros [H|(l & [<-|Hl] & H)]; [auto|auto|].
      right. exists l. auto.
Qed.

Section Scanners.

Context (w : World) (cfg : Config).




End Scanners.




(** * Further properties *)

(** ** How a run of [main] can end *)

Lemma bind_exits_with_one {A B} (m : M A) (f : A -> M B) st :
  exits_with_one (outcome (m st)) ->
  (forall a st', exits_with_one (outcome (f a st'))) ->
  exits_with_one (outcome (bind m f st)).
Proof.
  intros Hm Hf. unfold bind.
  destruct (outcome (m st)) as [a|c|e|] eqn:E; cbn [outcome].
  - apply Hf.
  - intros c' H. injection H as <-. apply Hm. reflexivity.
  - intros c H. discriminate H.
  - intros c H. discriminate H.
Qed.

Lemma for_each_exits_with_one {A} (l : list A) (body : A -> M unit) :
  (forall x st, exits_with_one (outcome (body x st))) ->
  forall st, exits_with_one (outcome (for_each l body st)).
Proof.
  intros Hb. induction l as [|x l IH]; intros st; cbn [for_each].
  - intros c H. discriminate H.
  - apply bind_exits_with_one; auto.
Qed.

Lemma for_fold_exits_with_one {A S} (l : list A) (body : A -> S -> M S) :
  (forall x s st, exits_with_one (outcome (body x s st))) ->
  forall s st, exits_with_one (outcome (for_fold l body s st)).
Proof.
  intros Hb. induction l as [|x l IH]; intros s st; cbn [for_fold].
  - intros c H. discriminate H.
  - apply bind_exits_with_one; auto.
Qed.

(** An outcome that is visibly no exit, or the exit with status 1. *)
Ltac exit_atom :=
  let c := fresh "c" in
  let H := fresh "H" in
  intros c H; cbn in H;
  first [discriminate H | injection H as <-; reflexivity].

(** One step through the code, as for the events. *)
Ltac exits_step :=
  lazymatch goal with
  | |- exits_with_one (outcome (bind _ _ _)) =>
      apply bind_exits_with_one; [|intros]
  | |- exits_with_one (outcome ((if ?b then _ else _) _)) => destruct b
  | |- exits_with_one (outcome (match ?x with _ => _ end _)) => destruct x
  | |- exits_with_one (outcome (send _ _ _)) =>
      unfold send; destruct (server _ _); exit_atom
  | |- exits_with_one (outcome (response_json _ _)) => unfold response_json
  | |- exits_with_one (outcome (dict_get _ ?j _)) => destruct j; exit_atom
  | |- exits_with_one (outcome (os_makedirs _ _)) => unfold os_makedirs
  | |- exits_with_one (outcome (os_chdir _ _)) => unfold os_chdir
  | |- exits_with_one (outcome (open_read_lines _ _)) => unfold open_read_lines
  | |- exits_with_one (outcome (open_write _ _ _)) => unfold open_write
  | |- exits_with_one (outcome (if ?b then _ else _)) => destruct b
  | |- exits_with_one (outcome (match ?x with _ => _ end)) => destruct x
  | |- exits_with_one (outcome _) => exit_atom
  end.

Ltac exits_of := repeat exits_step.

Section Endings.

Context (w : World) (cfg : Config).

Lemma get_token_exits st : exits_with_one (outcome (get_token w cfg st)).
Proof. unfold get_token, requests_post. cbv zeta. exits_of. Qed.

Lemma get_tenant_id_exits token st :
  exits_with_one (outcome (get_tenant_id w cfg token st)).
Proof. unfold get_tenant_id, requests_get. cbv zeta. exits_of. Qed.

Lemma get_contact_id_exits token tenant_id name st :
  exits_with_one (outcome (get_contact_id w cfg token tenant_id name st)).
Proof. unfold get_contact_id, get_xero_api, requests_get. cbv zeta. exits_of. Qed.

Lemma fetch_pages_exits fuel token tenant_id contact_id :
  forall page invoices st,
    exits_with_one
      (outcome (fetch_pages w cfg fuel token tenant_id contact_id page invoices st)).
Proof.
  induction fuel as [|fuel IH]; intros page invoices st; cbn [fetch_pages].
  - exit_atom.
  - unfold get_xero_api, requests_get. cbv zeta.
    do 6 exits_step; try exit_atom.
    all: try (apply bind_exits_with_one; [exit_atom|intros]).
    all: try (apply bind_exits_with_one; [exit_atom|intros]).
    all: try apply IH.
    all: exits_of.
Qed.

Lemma download_exits token tenant_id invoice_id file_name inv_num ds st :
  exits_with_one
    (outcome (download_invoice_attachment w cfg token tenant_id invoice_id
                file_name inv_num ds st)).
Proof.
  unfold download_invoice_attachment, requests_get. cbv zeta. exits_of.
Qed.

Lemma invoice_step_exits token tenant_id ps ds inv n st :
  exits_with_one (outcome (invoice_step w cfg token tenant_id ps ds inv n st)).
Proof.
  unfold invoice_step, get_xero_api, requests_get. cbv zeta.
  destruct (InvoiceID inv) as [inv_id|]; [|exit_atom].
  destruct (bool_decide _); [exits_of|].
  apply bind_exits_with_one; [exit_atom|intros].
  apply bind_exits_with_one; [unfold send; destruct (server _ _); exit_atom|intros].
  destruct (_ =? _)%Z; [|exits_of].
  apply bind_exits_with_one; [unfold response_json; destruct (json _); exit_atom|intros].
  apply bind_exits_with_one; [destruct a1; exit_atom|intros].
  apply bind_exits_with_one; [|intros; exit_atom].
  destruct a2 as [|x l]; [exit_atom|].
  apply for_each_exits_with_one. intros y st3. unfold attachment_step.
  destruct (FileName y); [|exit_atom].
  apply bind_exits_with_one; [exit_atom|intros]. apply download_exits.
Qed.

Lemma download_all_exits token tenant_id invoices st :
  exits_with_one (outcome (download_all w cfg token tenant_id invoices st)).
Proof.
  unfold download_all, load_processed_invoices, load_downloaded_attachments.
  cbv zeta.
  apply bind_exits_with_one; [exit_atom|intros there st1].
  apply bind_exits_with_one.
  { destruct there; [exit_atom|]. unfold os_makedirs.
    destruct (makedirs_go _ _ _ _) as [[? ?]|]; [|exit_atom].
    destruct (bool_decide _); exit_atom. }
  intros _ st2.
  apply bind_exits_with_one.
  { unfold os_chdir. destruct (resolve _ _); [|exit_atom].
    destruct (bool_decide _); exit_atom. }
  intros _ st3.
  assert (Hload : forall (scan : gset string -> string -> gset string) st',
            exits_with_one
              (outcome
                 ((there <- os_path_exists LOG_NAME ;;
                   if there then
                     lines <- open_read_lines LOG_NAME ;;
                     ret (fold_left scan lines ∅)
                   else ret ∅) st'))).
  { intros scan st'. apply bind_exits_with_one; [exit_atom|intros b st''].
    destruct b; [|exit_atom].
    apply bind_exits_with_one; [|intros; exit_atom].
    unfold open_read_lines. destruct (resolve _ _); [|exit_atom].
    destruct (_ !! _); exit_atom. }
  apply bind_exits_with_one; [apply Hload|intros ps st4].
  apply bind_exits_with_one; [apply Hload|intros ds st5].
  apply bind_exits_with_one; [|intros; exit_atom].
  apply for_fold_exits_with_one. intros. apply invoice_step_exits.
Qed.

(** X1.  A run of [main] ends in one of three ways: it returns, it exits
    with status 1, or (in the model) it is cut off in the page loop.  No
    exception leaves [main] and no other exit status is used. *)
Theorem main_endings (fuel : nat) (st : State) :
  outcome (main w cfg fuel st) = Returned tt
  \/ outcome (main w cfg fuel st) = Exited 1
  \/ outcome (main w cfg fuel st) = OutOfFuel.
Proof.
  unfold main, try_except.
  match goal with
  | |- context [outcome (?body st)] =>
      assert (Hb : exits_with_one (outcome (body st)))
  end.
  { apply bind_exits_with_one; [exit_atom|intros].
    apply bind_exits_with_one; [exit_atom|intros].
    apply bind_exits_with_one; [apply get_token_exits|intros].
    apply bind_exits_with_one; [apply get_tenant_id_exits|intros].
    apply bind_exits_with_one; [apply get_contact_id_exits|intros].
    apply bind_exits_with_one.
    { unfold get_invoices_for_contact.
      apply bind_exits_with_one; [apply fetch_pages_exits|intros].
      exits_of. }
    intros. apply download_all_exits. }
  match goal with
  | |- context [outcome (?body st)] =>
      destruct (outcome (body st)) as [[]|c|e|] eqn:E
  end.
  - left. exact E.
  - right. left. rewrite E. f_equal. apply Hb. reflexivity.
  - right. left. reflexivity.
  - right. right. exact E.
Qed.

End Endings.

(** ** Malformed and empty answers *)

Lemma bind_raised {A B} (m : M A) (f : A -> M B) st e st1 ev1 :
  m st = mkResult (Raised e) st1 ev1 ->
  bind m f st = mkResult (Raised e) st1 ev1.
Proof. intros H. unfold bind. rewrite H. reflexivity. Qed.

Lemma try_except_raised {A} (m : M A) (h : Exn -> M A) st e st1 ev1 :
  m st = mkResult (Raised e) st1 ev1 ->
  try_except m h st
  = mkResult (outcome (h e st1)) (final (h e st1)) (ev1 ++ events (h e st1)).
Proof. intros H. unfold try_except. rewrite H. reflexivity. Qed.

Section Answers.

Context (w : World) (cfg : Config).

(** X2.  When the token endpoint answers with status 200 but the body is
    not JSON, or is an object without [access_token], [main] has already
    reported "Obtained token successfully"; it then reports the exception
    as "Error occurred: ..." and exits with status 1, having sent no
    other request. *)
Theorem token_body_without_key (resp : Response) (e : Exn) (fuel : nat) (st : State) :
  server w (token_request cfg) = inr resp ->
  status_code resp = 200%Z ->
  (json resp = None /\ e = JSONDecodeError)
  \/ (exists d, json resp = Some (JDict d) /\ access_token d = None
                /\ e = KeyError "access_token") ->
  outcome (main w cfg fuel st) = Exited 1
  /\ events (main w cfg fuel st) =
       [EPrint "Fetching access token from Xero...";
        ELog INFO "Starting Xero invoice attachment downloader...";
        ERequest (token_request cfg);
        EPrint "Obtained token successfully";
        ELog INFO "Obtained token successfully";
        EPrint ("Error occurred: " +:+ str_exn w e);
        ELog ERROR ("Error occurred: " +:+ str_exn w e)].
Proof.
  intros Hsrv H200 Hbody.
  assert (Hget : forall st0,
            get_token w cfg st0 =
            mkResult (Raised e)
              (final (logger w cfg INFO "Obtained token successfully" st0))
              [ERequest (token_request cfg);
               EPrint "Obtained token successfully";
               ELog INFO "Obtained token successfully"]).
  { intros st0. unfold get_token, requests_post. cbv zeta.
    fold (token_request cfg).
    rewrite (bind_run _ _ _ _ _ _ (send_run w _ resp st0 Hsrv)).
    cbn [outcome final events]. rewrite H200. cbn [Z.eqb Pos.eqb].
    rewrite (bind_run _ _ _ _ _ _ (say_run w cfg _ _ st0)).
    cbn [outcome final events]. unfold response_json.
    destruct Hbody as [[Hj ->]|(d & Hj & Hk & ->)]; rewrite Hj.
    - reflexivity.
    - cbn [bind ret outcome final events]. rewrite Hk. reflexivity. }
  unfold main.
  erewrite try_except_raised.
  2:{ erewrite (bind_run (print _) _ st tt st) by reflexivity.
      cbn [outcome final events].
      erewrite (bind_run (logger_info w cfg _) _ st tt) by reflexivity.
      cbn [outcome final events].
      erewrite bind_raised by apply Hget.
      cbn [outcome final events app]. reflexivity. }
  split; reflexivity.
Qed.

(** X3.  [get_tenant_id] sends one request, to the connections endpoint.
    On status 200 with a list it returns the [tenantId] of the first
    connection; an empty list is reported as "No tenant found in
    connections" and exits with status 1; a first connection without
    [tenantId] raises [KeyError] before anything is printed. *)
Theorem get_tenant_id_first (token : string) (resp : Response)
    (l : list Connection) (st : State) :
  server w (connections_request token) = inr resp ->
  status_code resp = 200%Z ->
  json resp = Some (JList l) ->
  let r := get_tenant_id w cfg token st in
  requests_of (events r) = [connections_request token]
  /\ (forall c rest t,
        l = c :: rest -> tenantId c = Some t ->
        outcome r = Returned t
        /\ events r = [ERequest (connections_request token);
                       EPrint ("Using tenant ID: " +:+ t);
                       ELog INFO ("Using tenant ID: " +:+ t)])
  /\ (l = [] ->
      outcome r = Exited 1
      /\ events r = [ERequest (connections_request token);
                     EPrint "No tenant found in connections";
                     ELog ERROR "No tenant found in connections"])
  /\ (forall c rest,
        l = c :: rest -> tenantId c = None ->
        outcome r = Raised (KeyError "tenantId")
        /\ events r = [ERequest (connections_request token)]).
Proof.
  intros Hsrv H200 Hj r. subst r.
  unfold get_tenant_id, requests_get. cbv zeta. fold (connections_request token).
  rewrite (bind_run _ _ _ _ _ _ (send_run w _ resp st Hsrv)).
  cbn [outcome final events]. rewrite H200. cbn [Z.eqb Pos.eqb].
  unfold response_json. rewrite Hj.
  cbn [bind ret outcome final events app truthy].
  destruct l as [|c rest].
  - split; [reflexivity|]. split; [intros; discriminate|].
    split; [intros _; split; reflexivity|intros; discriminate].
  - destruct (tenantId c) as [t|] eqn:Ht.
    + split; [reflexivity|]. split.
      * intros c' rest' t' [= <- <-] Ht'. rewrite Ht in Ht'.
        injection Ht' as <-. split; reflexivity.
      * split; [intros; discriminate|].
        intros c' rest' [= <- <-] Ht'. congruence.
    + split; [reflexivity|]. split.
      * intros c' rest' t' [= <- <-] Ht'. congruence.
      * split; [intros; discriminate|].
        intros c' rest' [= <- <-] _. split; reflexivity.
Qed.

End Answers.

(** The token endpoint answers with a body that is not JSON. *)
Lemma token_body_without_key_witness :
  server (mkWorld (fun _ => inr (mkResponse 200 "<html>" EmptyString None))
            (fun _ => "t") (fun _ => "error"))
         (token_request Demo.cfg)
  = inr (mkResponse 200 "<html>" EmptyString None)
  /\ outcome (main (mkWorld (fun _ => inr (mkResponse 200 "<html>" EmptyString None))
                      (fun _ => "t") (fun _ => "error"))
                Demo.cfg 3 Demo.st0) = Exited 1.
Proof.
  split; [reflexivity|].
  exact (proj1 (token_body_without_key
                  (mkWorld (fun _ => inr (mkResponse 200 "<html>" EmptyString None))
                     (fun _ => "t") (fun _ => "error"))
                  Demo.cfg (mkResponse 200 "<html>" EmptyString None)
                  JSONDecodeError 3 Demo.st0 eq_refl eq_refl
                  (or_introl (conj eq_refl eq_refl)))).
Defined.

(** The connections endpoint of the demo server knows one tenant. *)
Lemma get_tenant_id_first_witness :
  server Demo.w_ok (connections_request "tok")
  = inr (Demo.ok (JList [mkConnection (Some "tenant")]))
  /\ outcome (get_tenant_id Demo.w_ok Demo.cfg "tok" Demo.st0) = Returned "tenant".
Proof.
  split; [reflexivity|].
  exact (proj1 (proj1 (proj2
           (get_tenant_id_first Demo.w_ok Demo.cfg "tok"
              (Demo.ok (JList [mkConnection (Some "tenant")]))
              [mkConnection (Some "tenant")] Demo.st0 eq_refl eq_refl eq_refl))
           (mkConnection (Some "tenant")) [] "tenant" eq_refl eq_refl)).
Defined.

(** ** Downloading an attachment *)

Lemma writes_of_app evs1 evs2 :
  writes_of (evs1 ++ evs2) = writes_of evs1 ++ writes_of evs2.
Proof. apply omap_app. Qed.


Lemma open_write_run (name bytes : string) (p : Path) (st : State) :
  resolve st name = Some p ->
  p ∉ dirs st ->
  open_write name bytes st
  = mkResult (Returned tt)
      (mkState (cwd st) (<[p := bytes]> (files st)) (dirs st) (clock st))
      [EWrite p bytes].
Proof.
  intros Hp Hd. unfold open_write. rewrite Hp.
  rewrite (bool_decide_eq_false_2 _ Hd). reflexivity.
Qed.

Lemma open_write_fails (name bytes : string) (st : State) :
  resolve st name = None \/ (exists p, resolve st name = Some p /\ p ∈ dirs st) ->
  open_write name bytes st = mkResult (Raised OSError) st [].
Proof.
  intros [H|(p & H & Hd)]; unfold open_write; rewrite H; [reflexivity|].
  rewrite (bool_decide_eq_true_2 _ Hd). reflexivity.
Qed.

Section Downloads.

Context (w : World) (cfg : Config).



(** X5.  Whatever the server and the file system do, the record
    "Downloaded attachment: <name>" is in the events of a call only when
    the request was answered with status 200 and the file was written
    before the record. *)
Theorem download_logged_after_write token tenant_id invoice_id file_name inv_num
    (ds : gset string) (st : State) :
  let r := download_invoice_attachment w cfg token tenant_id invoice_id
             file_name inv_num ds st in
  In (ELog INFO (downloaded_message (unique_name inv_num file_name))) (events r) ->
  exists resp p,
    server w (download_request token tenant_id invoice_id file_name) = inr resp
    /\ status_code resp = 200%Z
    /\ events r =
         [ERequest (download_request token tenant_id invoice_id file_name);
          EWrite p (content resp);
          EPrint (downloaded_message (unique_name inv_num file_name));
          ELog INFO (downloaded_message (unique_name inv_num file_name));
          ESleep 1].
Proof.
  intros r. subst r.
  unfold download_invoice_attachment. cbv zeta.
  fold (safe_name file_name). fold (unique_name inv_num file_name).
  destruct (bool_decide _).
  - cbn. intros [H|[H|[]]]; [discriminate H|].
    injection H as H. discriminate H.
  - unfold requests_get.
    fold (download_request token tenant_id invoice_id file_name).
    destruct (server w (download_request token tenant_id invoice_id file_name))
      as [e|resp] eqn:Hsrv.
    + assert (Hs : send w (download_request token tenant_id invoice_id file_name) st
                   = mkResult (Raised e) st
                       [ERequest (download_request token tenant_id invoice_id file_name)])
        by (unfold send; rewrite Hsrv; reflexivity).
      rewrite (bind_raised _ _ _ _ _ _ Hs). cbn [events In].
      intros [H|H]; [discriminate H|destruct H].
    + rewrite (bind_run _ _ _ _ _ _ (send_run w _ resp st Hsrv)).
      cbn [outcome final events].
      destruct (Z.eqb_spec (status_code resp) 200) as [H200|Hne].
      * destruct (resolve st (unique_name inv_num file_name)) as [p|] eqn:Hp.
        -- destruct (decide (p ∈ dirs st)) as [Hd|Hd].
           ++ erewrite (bind_raised (bind (open_write _ _) _)).
              2:{ apply bind_raised. apply open_write_fails. right. eauto. }
              cbn [events app In]. intros [H|H]; [discriminate H|destruct H].
           ++ intros _. exists resp, p. split; [reflexivity|]. split; [exact H200|].
              erewrite (bind_run (bind (open_write _ _) _)).
              2:{ rewrite (bind_run _ _ _ _ _ _ (open_write_run _ _ _ _ Hp Hd)).
                  cbn [outcome final events]. rewrite say_run.
                  cbn [outcome final events app]. reflexivity. }
              reflexivity.
        -- erewrite (bind_raised (bind (open_write _ _) _)).
           2:{ apply bind_raised. apply open_write_fails. left. exact Hp. }
           cbn [events app In]. intros [H|H]; [discriminate H|destruct H].
      * cbn. intros [H|[H|[H|[H|H]]]]; try discriminate H. destruct H.
Qed.


End Downloads.


(** The record is there after a successful download. *)
Lemma download_logged_after_write_witness :
  exists resp p,
    server Demo.w_ok (download_request "tok" "tenant" "id1" "report.pdf") = inr resp
    /\ status_code resp = 200%Z
    /\ events (download_invoice_attachment Demo.w_ok Demo.cfg "tok" "tenant" "id1"
                 "report.pdf" "INV-1" ∅ Demo.st0)
       = [ERequest (download_request "tok" "tenant" "id1" "report.pdf");
          EWrite p (content resp);
          EPrint (downloaded_message (unique_name "INV-1" "report.pdf"));
          ELog INFO (downloaded_message (unique_name "INV-1" "report.pdf"));
          ESleep 1].
Proof.
  apply (download_logged_after_write Demo.w_ok Demo.cfg "tok" "tenant" "id1"
           "report.pdf" "INV-1" ∅ Demo.st0).
  vm_compute. do 3 right. left. reflexivity.
Defined.


(** ** The loops *)

Lemma bind_returns {A B} (P : B -> Prop) (m : M A) (f : A -> M B) st :
  (forall a st', returns_in P (outcome (f a st'))) ->
  returns_in P (outcome (bind m f st)).
Proof.
  intros Hf. unfold bind.
  destruct (outcome (m st)) as [a| | |]; cbn [outcome].
  - apply Hf.
  - intros b H. discriminate H.
  - intros b H. discriminate H.
  - intros b H. discriminate H.
Qed.

Section Loops.

Context (w : World) (cfg : Config).

(** One invoice adds nothing or one to the counter. *)
Lemma invoice_step_counts token tenant_id ps ds inv n st :
  returns_in (fun n' => n' = n \/ n' = (n + 1)%Z)
    (outcome (invoice_step w cfg token tenant_id ps ds inv n st)).
Proof.
  unfold invoice_step. cbv zeta.
  destruct (InvoiceID inv) as [inv_id|]; [|intros a H; discriminate H].
  destruct (bool_decide _).
  - do 2 (apply bind_returns; intros). intros a' [= <-]. auto.
  - do 2 (apply bind_returns; intros).
    destruct (_ =? _)%Z.
    + do 3 (apply bind_returns; intros). intros a' [= <-]. auto.
    + apply bind_returns; intros. intros a' [= <-]. auto.
Qed.

(** X7.  The counter of new invoices never goes down and grows by at
    most one per invoice: the number reported as "Processed k new
    invoices." lies between 0 and the number of invoices retrieved. *)
Theorem processed_count_bounds token tenant_id (ps ds : gset string)
    (invoices : list Invoice) (n n' : Z) (st : State) :
  outcome (for_fold invoices (invoice_step w cfg token tenant_id ps ds) n st)
  = Returned n' ->
  (n <= n' <= n + len invoices)%Z.
Proof.
  unfold len. revert n st.
  induction invoices as [|inv invoices IH]; intros n st; cbn [for_fold length].
  - intros [= <-]. lia.
  - unfold bind.
    pose proof (invoice_step_counts token tenant_id ps ds inv n st) as Hstep.
    destruct (outcome (invoice_step w cfg token tenant_id ps ds inv n st))
      as [m| | |]; cbn [outcome]; try discriminate.
    intros H. apply IH in H.
    destruct (Hstep m eq_refl) as [->| ->]; lia.
Qed.

(** X8.  When every invoice of the list has its identifier in the
    processed set, the loop sends no request and writes no file, and the
    counter stays as it was. *)
Theorem processed_invoices_all_skipped token tenant_id (ps ds : gset string)
    (invoices : list Invoice) (n : Z) :
  Forall (fun inv => exists inv_id, InvoiceID inv = Some inv_id /\ inv_id ∈ ps)
    invoices ->
  forall st,
    let r := for_fold invoices (invoice_step w cfg token tenant_id ps ds) n st in
    outcome r = Returned n
    /\ requests_of (events r) = []
    /\ writes_of (events r) = [].
Proof.
  intros Hall. induction Hall as [|inv invoices (inv_id & Hid & Hin) _ IH];
    intros st; cbv zeta; cbn [for_fold].
  - repeat split.
  - destruct (invoice_step_skips w cfg token tenant_id ps ds inv inv_id n st Hid Hin)
      as (Ho & Hr & Hw).
    destruct (invoice_step w cfg token tenant_id ps ds inv n st) as [o st' evs] eqn:E.
    cbn [outcome events] in Ho, Hr, Hw. subst o.
    rewrite (bind_run _ _ _ _ _ _ E). cbn [outcome final events].
    destruct (IH st') as (Ho' & Hr' & Hw'). cbv zeta in Ho', Hr', Hw'.
    rewrite Ho', requests_of_app, writes_of_app, Hr, Hw, Hr', Hw'.
    repeat split.
Qed.

(** The page loop on pages with invoices followed by a page that fails. *)
Lemma fetch_pages_cut (token tenant_id contact_id : string)
    (pages : list (list Invoice)) :
  forall first acc fuel st,
    Forall (fun pg => pg <> []) pages ->
    (forall i pg, pages !! i = Some pg ->
       page_is w cfg token tenant_id contact_id (first + Z.of_nat i)%Z pg) ->
    page_fails w cfg token tenant_id contact_id (first + Z.of_nat (length pages))%Z ->
    length pages < fuel ->
    outcome (fetch_pages w cfg fuel token tenant_id contact_id first acc st) = Exited 1
    /\ requests_of (events (fetch_pages w cfg fuel token tenant_id contact_id first acc st))
       = map (page_request cfg token tenant_id contact_id)
           (page_numbers first (S (length pages))).
Proof.
  induction pages as [|pg pages IH]; intros first acc fuel st Hne Hpages Hlast Hfuel.
  - destruct fuel as [|fuel]; [cbn in Hfuel; lia|].
    cbn [length Z.of_nat] in Hlast. rewrite Z.add_0_r in Hlast.
    destruct Hlast as (resp & Hsrv & Hst).
    destruct (fetch_pages_fails w cfg fuel token tenant_id contact_id first acc resp st
                Hsrv Hst) as [Ho He].
    rewrite Ho, He. split; reflexivity.
  - destruct fuel as [|fuel]; [cbn in Hfuel; lia|].
    inversion Hne as [|? ? Hpg Hrest]; subst.
    assert (H0 : page_is w cfg token tenant_id contact_id first pg).
    { specialize (Hpages 0 pg eq_refl). cbn in Hpages.
      rewrite Z.add_0_r in Hpages. exact Hpages. }
    destruct (fetch_pages_more w cfg token tenant_id contact_id fuel first acc pg st
                H0 Hpg) as (st' & Ho & Hr).
    rewrite Ho, Hr.
    destruct (IH (first + 1)%Z (acc ++ pg) fuel st') as [Ho' Hr'].
    + exact Hrest.
    + intros i pg' Hi. specialize (Hpages (S i) pg' Hi).
      replace (first + 1 + Z.of_nat i)%Z with (first + Z.of_nat (S i))%Z by lia.
      exact Hpages.
    + replace (first + 1 + Z.of_nat (length pages))%Z
        with (first + Z.of_nat (length (pg :: pages)))%Z by (cbn [length]; lia).
      exact Hlast.
    + cbn [length] in Hfuel. lia.
    + rewrite Ho', Hr'. split; reflexivity.
Qed.

(** X9.  When the pages 1, ..., n have invoices and the request for page
    n + 1 is answered with a status other than 200,
    [get_invoices_for_contact] exits with status 1 after the requests for
    the pages 1, ..., n + 1: the invoices fetched so far are not
    returned, and the summary "Found ... invoices" is not written. *)
Theorem pagination_cut_short (token tenant_id contact_id : string)
    (pages : list (list Invoice)) (fuel : nat) (st : State) :
  Forall (fun pg => pg <> []) pages ->
  (forall i pg, pages !! i = Some pg ->
     page_is w cfg token tenant_id contact_id (1 + Z.of_nat i)%Z pg) ->
  page_fails w cfg token tenant_id contact_id (1 + Z.of_nat (length pages))%Z ->
  length pages < fuel ->
  let r := get_invoices_for_contact w cfg fuel token tenant_id contact_id st in
  outcome r = Exited 1
  /\ requests_of (events r)
     = map (page_request cfg token tenant_id contact_id)
         (page_numbers 1 (S (length pages)))
  /\ events r = events (fetch_pages w cfg fuel token tenant_id contact_id 1 [] st).
Proof.
  intros Hne Hpages Hlast Hfuel r. subst r.
  destruct (fetch_pages_cut token tenant_id contact_id pages 1%Z [] fuel st
              Hne Hpages Hlast Hfuel) as [Ho Hr].
  unfold get_invoices_for_contact, bind. rewrite Ho. cbn [outcome events].
  split; [reflexivity|]. split; [exact Hr|reflexivity].
Qed.

(** X10.  Obtaining the token, the tenant, the contact and the invoices
    only prints, logs, sends requests and sleeps: no directory is made or
    changed and no file is opened for writing before the invoices have
    been enumerated. *)
Theorem api_phase_off_disk (fuel : nat) (token tenant_id contact_id name : string)
    (st : State) :
  Forall off_disk (events (get_token w cfg st))
  /\ Forall off_disk (events (get_tenant_id w cfg token st))
  /\ Forall off_disk (events (get_contact_id w cfg token tenant_id name st))
  /\ Forall off_disk
       (events (get_invoices_for_contact w cfg fuel token tenant_id contact_id st)).
Proof.
  split; [|split; [|split]].
  - unfold get_token, requests_post. cbv zeta. events_of ltac:(exact I).
  - unfold get_tenant_id, requests_get. cbv zeta. events_of ltac:(exact I).
  - unfold get_contact_id, get_xero_api, requests_get. cbv zeta.
    events_of ltac:(exact I).
  - unfold get_invoices_for_contact.
    apply bind_events; [|intros; events_of ltac:(exact I)].
    generalize 1%Z, (@nil Invoice), st.
    induction fuel as [|k IH]; intros page acc st0; cbn [fetch_pages].
    + constructor.
    + unfold get_xero_api, requests_get. cbv zeta.
      events_of ltac:(exact I). apply IH.
Qed.

End Loops.

(** The demo server's single invoice, counted once. *)
Lemma processed_count_bounds_witness :
  outcome (for_fold [Demo.inv1]
             (invoice_step Demo.w_ok Demo.cfg "tok" "tenant" ∅ ∅) 0%Z Demo.st0)
  = Returned 1%Z
  /\ (0 <= 1 <= 0 + len [Demo.inv1])%Z.
Proof.
  assert (H : outcome (for_fold [Demo.inv1]
                         (invoice_step Demo.w_ok Demo.cfg "tok" "tenant" ∅ ∅) 0%Z
                         Demo.st0) = Returned 1%Z) by (vm_compute; reflexivity).
  split; [exact H|].
  exact (processed_count_bounds Demo.w_ok Demo.cfg "tok" "tenant" ∅ ∅ [Demo.inv1]
           0%Z 1%Z Demo.st0 H).
Defined.

(** The invoice [id1] with [id1] in the processed set. *)
Lemma processed_invoices_all_skipped_witness :
  Forall (fun inv => exists inv_id, InvoiceID inv = Some inv_id
                                    /\ inv_id ∈ ({[ "id1" ]} : gset string))
    [Demo.inv1]
  /\ requests_of
       (events (for_fold [Demo.inv1]
                  (invoice_step Demo.w_ok Demo.cfg "tok" "tenant" {[ "id1" ]} ∅) 0%Z
                  Demo.st0)) = [].
Proof.
  assert (H : Forall (fun inv => exists inv_id, InvoiceID inv = Some inv_id
                                    /\ inv_id ∈ ({[ "id1" ]} : gset string))
                [Demo.inv1]).
  { constructor; [|constructor]. exists "id1". split; [reflexivity|].
    apply elem_of_singleton. reflexivity. }
  split; [exact H|].
  exact (proj1 (proj2
    (processed_invoices_all_skipped Demo.w_ok Demo.cfg "tok" "tenant" {[ "id1" ]} ∅
       [Demo.inv1] 0%Z H Demo.st0))).
Defined.

(** One page of invoices, and the second page is answered with 503. *)
Lemma pagination_cut_short_witness :
  0 < 1 /\
  outcome
    (get_invoices_for_contact
       (mkWorld (fun q => match params q with
                          | Some [_; _; (_, PInt 1%Z)] =>
                              inr (Demo.ok (JDict (mkDict None None
                                                     (Some [Demo.inv1]) None)))
                          | _ => inr (mkResponse 503 "busy" EmptyString None)
                          end)
          (fun _ => "t") (fun _ => "error"))
       Demo.cfg 2 "tok" "tenant" "c1" Demo.st0) = Exited 1.
Proof.
  split; [lia|].
  refine (proj1 (pagination_cut_short _ Demo.cfg "tok" "tenant" "c1"
                   [[Demo.inv1]] 2 Demo.st0 _ _ _ _)).
  - repeat constructor; discriminate.
  - intros [|i] pg; cbn; intros [= <-].
    eexists _, _; repeat split; reflexivity.
  - eexists. split; [reflexivity|]. cbn. lia.
  - cbn. lia.
Defined.

(** ** What the scanners read back from the records the script writes *)

Section MoreStringFacts.

Local Arguments String.append !_ _ : simpl nomatch.









End MoreStringFacts.

Section ReadBack.

Context (w : World).



End ReadBack.



(** ** The scanners as sets, and the sanitised name *)

(** X13.  The processed and the downloaded set depend only on which
    lines the log holds: the order of the lines and their repetition
    make no difference. *)
Theorem scanners_ignore_order (lines lines' : list string) :
  (forall line, In line lines <-> In line lines') ->
  fold_left scan_processed lines ∅ = fold_left scan_processed lines' ∅
  /\ fold_left scan_downloaded lines ∅ = fold_left scan_downloaded lines' ∅.
Proof.
  intros Hsame. split; apply set_eq; intros x.
  - rewrite !(fold_scan_spec _ _ scan_processed_spec). split.
    + intros [H|(l & Hl & H)]; [auto|]. right. exists l. split; [apply Hsame, Hl|exact H].
    + intros [H|(l & Hl & H)]; [auto|]. right. exists l. split; [apply Hsame, Hl|exact H].
  - rewrite !(fold_scan_spec _ _ scan_downloaded_spec). split.
    + intros [H|(l & Hl & H)]; [auto|]. right. exists l. split; [apply Hsame, Hl|exact H].
    + intros [H|(l & Hl & H)]; [auto|]. right. exists l. split; [apply Hsame, Hl|exact H].
Qed.

(** Two records, and the same two the other way round with one repeated. *)
Lemma scanners_ignore_order_witness :
  fold_left scan_processed
    ["Processing invoice: 1 (ID: a, Date: d)"; "Processing invoice: 2 (ID: b, Date: d)"] ∅
  = fold_left scan_processed
      ["Processing invoice: 2 (ID: b, Date: d)"; "Processing invoice: 1 (ID: a, Date: d)";
       "Processing invoice: 2 (ID: b, Date: d)"] ∅.
Proof.
  refine (proj1 (scanners_ignore_order _ _ _)).
  intros line. cbn [In]. split.
  - intros [H|[H|H]]; [right; left; exact H|left; exact H|destruct H].
  - intros [H|[H|[H|H]]]; [right; left; exact H|left; exact H|right; left; exact H|
                            destruct H].
Defined.

Section ReplaceFacts.

Local Arguments String.append !_ _ : simpl nomatch.

Lemma replace_char_app (old : ascii) (new s t : string) :
  Py.replace_char old new (s +:+ t)
  = Py.replace_char old new s +:+ Py.replace_char old new t.
Proof.
  induction s as [|c s IH]; [reflexivity|].
  rewrite sapp_cons. cbn [Py.replace_char]. rewrite IH, sapp_assoc. reflexivity.
Qed.

Lemma replace_char_length (old c : ascii) (s : string) :
  String.length (Py.replace_char old (String c EmptyString) s) = String.length s.
Proof.
  induction s as [|d s IH]; [reflexivity|].
  cbn [Py.replace_char]. rewrite slength_app, IH.
  destruct (Ascii.eqb d old); reflexivity.
Qed.

Lemma replace_char_absent (old : ascii) (new s : string) :
  Py.contains (String old EmptyString) s = false ->
  Py.replace_char old new s = s.
Proof.
  induction s as [|d s IH]; intros H; [reflexivity|].
  rewrite contains_char_cons in H. apply orb_false_iff in H as [Hd H].
  cbn [Py.replace_char]. rewrite (IH H).
  rewrite Ascii.eqb_sym in Hd. rewrite Hd. reflexivity.
Qed.

(** X14.  Sanitising a file name changes it character for character:
    the result has the length of the name, holds neither a slash nor a
    backslash, and is left as it is by a second sanitising. *)
Theorem safe_name_char_for_char (file_name : string) :
  String.length (safe_name file_name) = String.length file_name
  /\ Py.contains "/" (safe_name file_name) = false
  /\ Py.contains "\" (safe_name file_name) = false
  /\ safe_name (safe_name file_name) = safe_name file_name.
Proof.
  destruct (safe_name_no_separator file_name) as [Hs Hb].
  split; [|split; [exact Hs|split; [exact Hb|]]].
  - unfold safe_name. now rewrite !replace_char_length.
  - unfold safe_name at 1.
    rewrite (replace_char_absent "/" _ _ Hs).
    apply replace_char_absent, Hb.
Qed.

(** X15.  File names that differ only in a slash, a backslash or an
    underscore at the same place are stored under one name: the
    attachments of an invoice can overwrite each other. *)
Theorem separators_collide (inv_num a b : string) :
  unique_name inv_num (a +:+ "/" +:+ b) = unique_name inv_num (a +:+ "_" +:+ b)
  /\ unique_name inv_num (a +:+ "\" +:+ b) = unique_name inv_num (a +:+ "_" +:+ b).
Proof.
  unfold unique_name, safe_name.
  rewrite !replace_char_app. split; reflexivity.
Qed.

End ReplaceFacts.

(** ** Invoices without attachments, records without keys *)

Section EdgeCases.

Context (w : World) (cfg : Config).

(** X16.  An invoice whose attachment list comes back with status 200
    and is empty, or whose answer has no [Attachments] key, costs one
    request, is reported as "No attachments found for invoice <number>"
    and is counted as a new invoice. *)
Theorem invoice_without_attachments token tenant_id (ps ds : gset string)
    (inv : Invoice) (inv_id : string) (resp : Response) (d : Dict) (n : Z) (st : State) :
  InvoiceID inv = Some inv_id ->
  inv_id ∉ ps ->
  server w (attachments_request token tenant_id inv_id) = inr resp ->
  status_code resp = 200%Z ->
  json resp = Some (JDict d) ->
  default [] (Attachments d) = [] ->
  let inv_num := default inv_id (InvoiceNumber inv) in
  let started := "Processing invoice: " +:+ inv_num +:+ " (ID: " +:+ inv_id
                 +:+ ", Date: " +:+ default "N/A" (DateString inv) +:+ ")" in
  let r := invoice_step w cfg token tenant_id ps ds inv n st in
  outcome r = Returned (n + 1)%Z
  /\ events r =
       [EPrint started; ELog INFO started;
        ERequest (attachments_request token tenant_id inv_id);
        EPrint ("No attachments found for invoice " +:+ inv_num);
        ELog INFO ("No attachments found for invoice " +:+ inv_num)].
Proof.
  intros Hid Hnot Hsrv H200 Hj Hd inv_num started r. subst r.
  unfold invoice_step. rewrite Hid. cbv zeta.
  rewrite (bool_decide_eq_false_2 _ Hnot).
  unfold get_xero_api, requests_get. cbv zeta.
  fold (api_headers token tenant_id).
  fold (attachments_request token tenant_id inv_id).
  rewrite (bind_run _ _ _ _ _ _ (say_run w cfg _ _ st)).
  cbn [outcome final events].
  rewrite (bind_run _ _ _ _ _ _ (send_run w _ resp _ Hsrv)).
  cbn [outcome final events]. rewrite H200. cbn [Z.eqb Pos.eqb].
  unfold response_json. rewrite Hj.
  cbn [bind ret dict_get outcome final events app]. rewrite Hd.
  split; reflexivity.
Qed.

(** The loop over the invoices, up to an invoice that raises. *)
Lemma for_fold_raises {A S} (body : A -> S -> M S) (x : A) (rest : list A) (e : Exn) :
  (forall s st, body x s st = mkResult (Raised e) st []) ->
  forall pre s st s1 st1 ev1,
    for_fold pre body s st = mkResult (Returned s1) st1 ev1 ->
    for_fold (pre ++ x :: rest) body s st = mkResult (Raised e) st1 ev1.
Proof.
  intros Hx. induction pre as [|y pre IH]; intros s st s1 st1 ev1 H.
  - cbn in H. injection H as <- <- <-. cbn [app for_fold].
    apply bind_raised, Hx.
  - cbn [app for_fold] in H |- *. unfold bind in H |- *.
    destruct (body y s st) as [[s'| | |] st' ev'] eqn:E;
      cbn [outcome final events] in H |- *; try discriminate H.
    destruct (for_fold pre body s' st') as [o2 st2 ev2] eqn:E2.
    cbn [outcome final events] in H. injection H as -> -> <-.
    rewrite (IH _ _ _ _ _ E2). reflexivity.
Qed.

(** X17.  A record without its key stops the run of the loop it is met
    in.  The invoices before an invoice without [InvoiceID] are handled
    as usual; at that invoice [KeyError] is raised before anything is
    printed or requested for it, and the invoices after it are not looked
    at.  An attachment without [FileName] does the same in the loop over
    the attachments. *)
Theorem record_without_key_stops_loop token tenant_id (ps ds : gset string)
    (before invoices : list Invoice) (inv : Invoice) (n n1 : Z)
    (inv_id inv_num : string) (att : Attachment) (atts : list Attachment)
    (st st1 : State) (ev1 : list Event) :
  InvoiceID inv = None ->
  FileName att = None ->
  for_fold before (invoice_step w cfg token tenant_id ps ds) n st
  = mkResult (Returned n1) st1 ev1 ->
  for_fold (before ++ inv :: invoices) (invoice_step w cfg token tenant_id ps ds) n st
  = mkResult (Raised (KeyError "InvoiceID")) st1 ev1
  /\ for_each (att :: atts) (attachment_step w cfg token tenant_id inv_id inv_num ds) st
     = mkResult (Raised (KeyError "FileName")) st [].
Proof.
  intros Hi Ha Hbefore. split.
  - apply (for_fold_raises _ inv invoices (KeyError "InvoiceID")) with (s1 := n1);
      [|exact Hbefore].
    intros s st0. unfold invoice_step. rewrite Hi. reflexivity.
  - cbn [for_each]. apply bind_raised. unfold attachment_step. rewrite Ha. reflexivity.
Qed.

End EdgeCases.

(** An invoice of the demo server, whose invoices have no attachments
    when the list is empty. *)
Lemma invoice_without_attachments_witness :
  default [] (Attachments (mkDict None None None (Some []))) = []
  /\ outcome (invoice_step (Demo.world [[Demo.inv1]] [] 200 200) Demo.cfg "tok" "tenant"
                ∅ ∅ Demo.inv1 0%Z Demo.st0) = Returned 1%Z.
Proof.
  split; [reflexivity|].
  exact (proj1 (invoice_without_attachments (Demo.world [[Demo.inv1]] [] 200 200)
                  Demo.cfg "tok" "tenant" ∅ ∅ Demo.inv1 "id1"
                  (mkResponse 200 "body" EmptyString
                     (Some (JDict (mkDict None None None (Some [])))))
                  (mkDict None None None (Some [])) 0%Z Demo.st0
                  eq_refl (not_elem_of_empty _) eq_refl eq_refl eq_refl eq_refl)).
Defined.

(** An invoice that is an empty object, after none and before one. *)
Lemma record_without_key_stops_loop_witness :
  InvoiceID (mkInvoice None None None) = None
  /\ outcome (for_fold [mkInvoice None None None; Demo.inv1]
                (invoice_step Demo.w_ok Demo.cfg "tok" "tenant" ∅ ∅) 0%Z Demo.st0)
     = Raised (KeyError "InvoiceID").
Proof.
  split; [reflexivity|].
  exact (f_equal outcome
           (proj1 (record_without_key_stops_loop Demo.w_ok Demo.cfg "tok" "tenant"
                     ∅ ∅ [] [Demo.inv1] (mkInvoice None None None) 0%Z 0%Z "id1" "INV-1"
                     (mkAttachment None) [] Demo.st0 Demo.st0 [] eq_refl eq_refl
                     eq_refl))).
Defined.
